(** * rnnlm/make_word_features.py: sparse word features

    A shallow embedding of [scripts/rnnlm/make_word_features.py] and the
    properties of its three loaders and of [get_feature_list].

    Conventions of the embedding
    - Python [int] is [Z]; [float] is the kernel's binary64 [float].
    - A [str] is a [string]; every character stands for one code point
      (below 256), so [len] counts characters as Python does.
    - A [dict] is a [gmap]; the [feats] dict with its fixed keys is a record.
    - An exception or [sys.exit] is a [Raise] in the [result] monad, tagged
      with the place that raises it.
    - [float()] and the value of [math.log] come from the Python runtime and
      are parameters ([PyRuntime]). *)

From Stdlib Require Import ZArith Floats Uint63 String Ascii Lia.
From stdpp Require Import base option list gmap strings sorting.

Open Scope string_scope.
Open Scope Z_scope.

(** ** Exceptions *)

(** The three [assert] statements of the script. *)
Inductive assert_site :=
| FieldCount      (* assert len(fields) == 2 / assert(len(fields) in [2, 3, 4]) *)
| IdxEqId         (* assert idx == id *)
| ProbNotNone.    (* assert prob is not None *)

(** The two [sys.exit] calls of the script. *)
Inductive exit_msg :=
| DuplicatedWord (w : string)         (* "duplicated word({0}) in vocab" *)
| ErrorFeatureType (t : string).      (* "error feature type: {0}" *)

Inductive error :=
| AssertionError (site : assert_site)
| SystemExit (msg : exit_msg)
| IndexError
| ValueError
| ZeroDivisionError.

Inductive result (A : Type) :=
| Ok (a : A)
| Raise (e : error).
Arguments Ok {A} a.
Arguments Raise {A} e.

#[global] Instance result_ret : MRet result := @Ok.
#[global] Instance result_bind : MBind result :=
  λ A B f m, match m with Ok a => f a | Raise e => Raise e end.

(** [for x in l: st = body(st, x)], stopping at the first exception. *)
Fixpoint for_each {S A : Type} (body : S → A → result S) (l : list A) (st : S)
  : result S :=
  match l with
  | [] => Ok st
  | x :: l' => st' ← body st x; for_each body l' st'
  end.

(** ** Builtins *)

Definition len (s : string) : Z := Z.of_nat (String.length s).

(** [range(start, stop)] *)
Definition range (start stop : Z) : list Z := seqZ start (stop - start).

(** [enumerate(l)] *)
Definition enumerate {A : Type} (l : list A) : list (Z * A) :=
  imap (λ i x, (Z.of_nat i, x)) l.

(** [l[i]], with Python's negative indices. *)
Definition getitem {A : Type} (l : list A) (i : Z) : result A :=
  let j := if i <? 0 then i + Z.of_nat (length l) else i in
  if j <? 0 then Raise IndexError
  else match l !! Z.to_nat j with
       | Some x => Ok x
       | None => Raise IndexError
       end.

(** [l[i] = x], with Python's negative indices. *)
Definition setitem {A : Type} (l : list A) (i : Z) (x : A) : result (list A) :=
  let j := if i <? 0 then i + Z.of_nat (length l) else i in
  if (j <? 0) || (Z.of_nat (length l) <=? j) then Raise IndexError
  else Ok (<[Z.to_nat j := x]> l).

(** [s[start:stop]]: both bounds are clamped into [0, len(s)], negative ones
    count from the end. *)
Definition slice_bound (n i : Z) : Z :=
  if i <? 0 then Z.max 0 (i + n) else Z.min i n.

Definition slice (s : string) (start stop : Z) : string :=
  let b := slice_bound (len s) start in
  let e := slice_bound (len s) stop in
  String.substring (Z.to_nat b) (Z.to_nat (e - b)) s.

(** [str.isspace] on one character: the code points below 256 that Python
    counts as whitespace. *)
Definition isspace (c : ascii) : bool :=
  let n := Z.of_N (N_of_ascii c) in
  ((9 <=? n) && (n <=? 13)) || ((28 <=? n) && (n <=? 32))
  || (n =? 133) || (n =? 160).

Definition starts_field (s : string) : bool :=
  match s with
  | String c _ => negb (isspace c)
  | EmptyString => false
  end.

(** [line.split()]: the maximal runs of characters that are not whitespace. *)
Fixpoint split (s : string) : list string :=
  match s with
  | EmptyString => []
  | String c s' =>
      if isspace c then split s'
      else if starts_field s' then
             match split s' with
             | w :: ws => String c w :: ws
             | [] => [String c EmptyString]
             end
           else String c EmptyString :: split s'
  end.

Definition digit_of (c : ascii) : option Z :=
  let n := Z.of_N (N_of_ascii c) in
  if (48 <=? n) && (n <=? 57) then Some (n - 48) else None.

(** The digits of an integer literal; a single underscore may separate two
    digits. *)
Fixpoint int_digits (s : string) (acc : Z) (after_digit : bool) : option Z :=
  match s with
  | EmptyString => if after_digit then Some acc else None
  | String c s' =>
      match digit_of c with
      | Some d => int_digits s' (10 * acc + d) true
      | None =>
          if after_digit && Ascii.eqb c "_" then int_digits s' acc false
          else None
      end
  end.

(** [int(s)] on a field produced by [split] (so without surrounding
    whitespace): an optional sign and decimal digits. The interpreter's
    limit on the number of digits is left out. *)
Definition py_int (s : string) : result Z :=
  let r := match s with
           | String "-" s' => Z.opp <$> int_digits s' 0 false
           | String "+" s' => int_digits s' 0 false
           | _ => int_digits s 0 false
           end in
  match r with
  | Some z => Ok z
  | None => Raise ValueError
  end.

(** What the script takes from the Python runtime and the C library:
    [float(s)] on a field, and the value [math.log] returns where it is
    defined. *)
Class PyRuntime := {
  float_of_string : string → option float;
  libm_log : float → float
}.

(** [float(s)]: a [ValueError] when [s] is no float literal. *)
Definition py_float `{PyRuntime} (s : string) : result float :=
  match float_of_string s with
  | Some x => Ok x
  | None => Raise ValueError
  end.

(** [math.log(x)]: a domain error for [x <= 0] (also for [-0.0] and [-inf]);
    a nan is not [<= 0] and is passed on. *)
Definition math_log `{PyRuntime} (x : float) : result float :=
  if PrimFloat.leb x 0%float then Raise ValueError else Ok (libm_log x).

(** [x / y] on floats. *)
Definition float_div (x y : float) : result float :=
  if PrimFloat.eqb y 0%float then Raise ZeroDivisionError
  else Ok (PrimFloat.div x y).

(** ** The vocabulary *)

Definition read_vocab_line (vocab : gmap string Z) (line : string)
  : result (gmap string Z) :=
  let fields := split line in
  if decide (length fields = 2%nat) then
    w ← getitem fields 0;
    match vocab !! w with
    | Some _ => Raise (SystemExit (DuplicatedWord w))
    | None =>
        f1 ← getitem fields 1;
        id ← py_int f1;
        Ok (<[w := id]> vocab)
    end
  else Raise (AssertionError FieldCount).

(** [for idx, id in enumerate(sorted_ids): assert idx == id] *)
Definition check_ids (sorted_ids : list Z) : result unit :=
  for_each (λ _ '(idx, id),
              if idx =? id then Ok tt else Raise (AssertionError IdxEqId))
           (enumerate sorted_ids) tt.

(** [vocab.values()] *)
Definition values {K : Type} `{Countable K} {V : Type} (m : gmap K V) : list V :=
  (map_to_list m).*2.

(** [sorted(l)] on integers *)
Definition sorted (l : list Z) : list Z := merge_sort Z.le l.

Definition read_vocab (vocab_file : list string) : result (gmap string Z) :=
  vocab ← for_each read_vocab_line vocab_file ∅;
  let sorted_ids := sorted (values vocab) in
  _ ← check_ids sorted_ids;
  Ok vocab.

(** ** The unigram probabilities *)

Definition read_unigram_probs_line `{PyRuntime}
    (unigram_probs : list (option float)) (line : string)
  : result (list (option float)) :=
  let fields := split line in
  if decide (length fields = 2%nat) then
    f0 ← getitem fields 0;
    idx ← py_int f0;
    let unigram_probs :=
      if Z.of_nat (length unigram_probs) <=? idx then
        (unigram_probs
           ++ replicate (Z.to_nat (idx - Z.of_nat (length unigram_probs) + 1)) None)%list
      else unigram_probs in
    f1 ← getitem fields 1;
    p ← py_float f1;
    setitem unigram_probs idx (Some p)
  else Raise (AssertionError FieldCount).

(** The slots after the reading loop, before they are checked. *)
Definition fill_unigram_probs `{PyRuntime} (unigram_probs_file : list string)
  : result (list (option float)) :=
  for_each read_unigram_probs_line unigram_probs_file [].

(** [for prob in unigram_probs: assert prob is not None] *)
Fixpoint check_probs (unigram_probs : list (option float)) : result (list float) :=
  match unigram_probs with
  | [] => Ok []
  | Some p :: l => ps ← check_probs l; Ok (p :: ps)
  | None :: _ => Raise (AssertionError ProbNotNone)
  end.

Definition read_unigram_probs `{PyRuntime} (unigram_probs_file : list string)
  : result (list float) :=
  unigram_probs ← fill_unigram_probs unigram_probs_file;
  check_probs unigram_probs.

(** ** The feature dictionary *)

(** The four dicts of n-grams: feats['word'], feats['match'],
    feats['initial'], feats['final']. *)
Inductive ngram_type := Word | Match | Initial | Final.

#[global] Instance ngram_type_eq_dec : EqDecision ngram_type.
Proof. solve_decision. Defined.

(** The dict [feats]; an absent key ('unigram', 'length') and the value
    [None] ('constant') are both [None]. *)
Record feats := {
  feats_constant : option (Z * float);
  feats_special : gmap string Z;
  feats_unigram : option (Z * float * float);
  feats_length : option Z;
  feats_word : gmap string Z;
  feats_match : gmap string Z;
  feats_initial : gmap string Z;
  feats_final : gmap string Z;
  feats_min_ngram_order : Z;
  feats_max_ngram_order : Z
}.

Definition empty_feats : feats := {|
  feats_constant := None;
  feats_special := ∅;
  feats_unigram := None;
  feats_length := None;
  feats_word := ∅;
  feats_match := ∅;
  feats_initial := ∅;
  feats_final := ∅;
  feats_min_ngram_order := 10000;
  feats_max_ngram_order := -1
|}.

(** [feats[feat_type]] for one of the four n-gram types. *)
Definition feats_ngram (fs : feats) (ty : ngram_type) : gmap string Z :=
  match ty with
  | Word => feats_word fs
  | Match => feats_match fs
  | Initial => feats_initial fs
  | Final => feats_final fs
  end.

Definition set_constant (fs : feats) (c : Z * float) : feats := {|
  feats_constant := Some c;
  feats_special := feats_special fs;
  feats_unigram := feats_unigram fs;
  feats_length := feats_length fs;
  feats_word := feats_word fs;
  feats_match := feats_match fs;
  feats_initial := feats_initial fs;
  feats_final := feats_final fs;
  feats_min_ngram_order := feats_min_ngram_order fs;
  feats_max_ngram_order := feats_max_ngram_order fs
|}.

Definition set_special (fs : feats) (w : string) (feat_id : Z) : feats := {|
  feats_constant := feats_constant fs;
  feats_special := <[w := feat_id]> (feats_special fs);
  feats_unigram := feats_unigram fs;
  feats_length := feats_length fs;
  feats_word := feats_word fs;
  feats_match := feats_match fs;
  feats_initial := feats_initial fs;
  feats_final := feats_final fs;
  feats_min_ngram_order := feats_min_ngram_order fs;
  feats_max_ngram_order := feats_max_ngram_order fs
|}.

Definition set_unigram (fs : feats) (u : Z * float * float) : feats := {|
  feats_constant := feats_constant fs;
  feats_special := feats_special fs;
  feats_unigram := Some u;
  feats_length := feats_length fs;
  feats_word := feats_word fs;
  feats_match := feats_match fs;
  feats_initial := feats_initial fs;
  feats_final := feats_final fs;
  feats_min_ngram_order := feats_min_ngram_order fs;
  feats_max_ngram_order := feats_max_ngram_order fs
|}.

Definition set_length (fs : feats) (feat_id : Z) : feats := {|
  feats_constant := feats_constant fs;
  feats_special := feats_special fs;
  feats_unigram := feats_unigram fs;
  feats_length := Some feat_id;
  feats_word := feats_word fs;
  feats_match := feats_match fs;
  feats_initial := feats_initial fs;
  feats_final := feats_final fs;
  feats_min_ngram_order := feats_min_ngram_order fs;
  feats_max_ngram_order := feats_max_ngram_order fs
|}.

(** [feats[feat_type][ngram] = feat_id] *)
Definition set_ngram (fs : feats) (ty : ngram_type) (ngram : string) (feat_id : Z)
  : feats := {|
  feats_constant := feats_constant fs;
  feats_special := feats_special fs;
  feats_unigram := feats_unigram fs;
  feats_length := feats_length fs;
  feats_word :=
    if decide (ty = Word) then <[ngram := feat_id]> (feats_word fs) else feats_word fs;
  feats_match :=
    if decide (ty = Match) then <[ngram := feat_id]> (feats_match fs) else feats_match fs;
  feats_initial :=
    if decide (ty = Initial) then <[ngram := feat_id]> (feats_initial fs)
    else feats_initial fs;
  feats_final :=
    if decide (ty = Final) then <[ngram := feat_id]> (feats_final fs) else feats_final fs;
  feats_min_ngram_order := feats_min_ngram_order fs;
  feats_max_ngram_order := feats_max_ngram_order fs
|}.

Definition set_max_ngram_order (fs : feats) (order : Z) : feats := {|
  feats_constant := feats_constant fs;
  feats_special := feats_special fs;
  feats_unigram := feats_unigram fs;
  feats_length := feats_length fs;
  feats_word := feats_word fs;
  feats_match := feats_match fs;
  feats_initial := feats_initial fs;
  feats_final := feats_final fs;
  feats_min_ngram_order := feats_min_ngram_order fs;
  feats_max_ngram_order := order
|}.

Definition set_min_ngram_order (fs : feats) (order : Z) : feats := {|
  feats_constant := feats_constant fs;
  feats_special := feats_special fs;
  feats_unigram := feats_unigram fs;
  feats_length := feats_length fs;
  feats_word := feats_word fs;
  feats_match := feats_match fs;
  feats_initial := feats_initial fs;
  feats_final := feats_final fs;
  feats_min_ngram_order := order;
  feats_max_ngram_order := feats_max_ngram_order fs
|}.

(** [feat_type in ['word', 'match', 'initial', 'final']] *)
Definition ngram_type_of (feat_type : string) : option ngram_type :=
  if decide (feat_type = "word") then Some Word
  else if decide (feat_type = "match") then Some Match
  else if decide (feat_type = "initial") then Some Initial
  else if decide (feat_type = "final") then Some Final
  else None.

(** The order an n-gram entry stands for: its length, plus one for the
    boundary symbol of an initial or final n-gram. *)
Definition ngram_order (ty : ngram_type) (ngram : string) : Z :=
  match ty with
  | Initial | Final => len ngram + 1
  | _ => len ngram
  end.

(** The two comparisons that follow an n-gram entry. *)
Definition track_order (fs : feats) (order : Z) : feats :=
  let fs := if feats_max_ngram_order fs <? order
            then set_max_ngram_order fs order else fs in
  if order <? feats_min_ngram_order fs then set_min_ngram_order fs order else fs.

(** The body of the loop of [read_features], on the fields of one line. *)
Definition read_features_fields `{PyRuntime} (fs : feats) (fields : list string)
  : result feats :=
  if decide (length fields = 2 ∨ length fields = 3 ∨ length fields = 4)%nat then
    f0 ← getitem fields 0;
    feat_id ← py_int f0;
    feat_type ← getitem fields 1;
    if decide (feat_type = "constant") then
      f2 ← getitem fields 2;
      value ← py_float f2;
      Ok (set_constant fs (feat_id, value))
    else if decide (feat_type = "special") then
      f2 ← getitem fields 2;
      Ok (set_special fs f2 feat_id)
    else if decide (feat_type = "unigram") then
      f2 ← getitem fields 2;
      entropy ← py_float f2;
      f3 ← getitem fields 3;
      scale ← py_float f3;
      Ok (set_unigram fs (feat_id, entropy, scale))
    else if decide (feat_type = "length") then
      Ok (set_length fs feat_id)
    else
      match ngram_type_of feat_type with
      | Some ty =>
          ngram ← getitem fields 2;
          let fs := set_ngram fs ty ngram feat_id in
          if decide (ty = Word) then Ok fs
          else Ok (track_order fs (ngram_order ty ngram))
      | None => Raise (SystemExit (ErrorFeatureType feat_type))
      end
  else Raise (AssertionError FieldCount).

Definition read_features_line `{PyRuntime} (fs : feats) (line : string)
  : result feats :=
  read_features_fields fs (split line).

Definition read_features `{PyRuntime} (features_file : list string) : result feats :=
  for_each read_features_line features_file empty_feats.

(** ** Feature vectors *)

(** A value of the answer dict: an [int] or a [float]. *)
Inductive value :=
| VInt (z : Z)
| VFloat (x : float).

(** [v + 1] *)
Definition value_incr (v : value) : value :=
  match v with
  | VInt z => VInt (z + 1)
  | VFloat x => VFloat (PrimFloat.add x 1%float)
  end.

(** [ans[feat_id] += 1] on a [defaultdict(int)]. *)
Definition incr (ans : gmap Z value) (feat_id : Z) : gmap Z value :=
  <[feat_id := value_incr (default (VInt 0) (ans !! feat_id))]> ans.

(** The span the n-gram loop looks at for one [pos] and [order]: the dict
    it is looked up in and the substring [word[start:end]]; [None] where the
    loop body runs into a [continue]. *)
Definition ngram_span (word : string) (pos order : Z)
  : option (ngram_type * string) :=
  let start := pos - order + 1 in
  let end_ := pos + 1 in
  if start <? -1 then None
  else if (start <? 0) && (end_ >? len word) then None
  else
    let '(ngram_feats, start, end_) :=
      if start <? 0 then (Initial, 0, end_)
      else if end_ >? len word then (Final, start, len word)
      else (Match, start, end_) in
    if start >=? end_ then None
    else Some (ngram_feats, slice word start end_).

(** The body of the inner loop. *)
Definition ngram_step (fs : feats) (word : string) (ans : gmap Z value)
    (pos order : Z) : gmap Z value :=
  match ngram_span word pos order with
  | None => ans
  | Some (ngram_feats, feat) =>
      match feats_ngram fs ngram_feats !! feat with
      | Some feat_id => incr ans feat_id
      | None => ans
      end
  end.

(** The two nested loops over [pos] and [order]. *)
Definition ngram_scan (fs : feats) (word : string) (ans : gmap Z value)
  : gmap Z value :=
  foldl (λ ans pos,
           foldl (λ ans order, ngram_step fs word ans pos order) ans
                 (range (feats_min_ngram_order fs) (feats_max_ngram_order fs + 1)))
        ans (range 0 (len word + 1)).

(** The unigram feature: [(logp + entropy) * scale / entropy]. *)
Definition unigram_value `{PyRuntime} (p entropy scale : float) : result float :=
  logp ← math_log p;
  float_div (PrimFloat.mul (PrimFloat.add logp entropy) scale) entropy.

Definition get_feature_list `{PyRuntime} (fs : feats) (unigram_probs : list float)
    (word : string) (idx : Z) : result (gmap Z value) :=
  let ans : gmap Z value := ∅ in
  if idx =? 0 then Ok ans
  else
    let ans := match feats_constant fs with
               | Some (feat_id, value) => <[feat_id := VFloat value]> ans
               | None => ans
               end in
    match feats_special fs !! word with
    | Some feat_id => Ok (<[feat_id := VInt 1]> ans)
    | None =>
        ans ← match feats_unigram fs with
              | Some (feat_id, entropy, scale) =>
                  p ← getitem unigram_probs idx;
                  v ← unigram_value p entropy scale;
                  Ok (<[feat_id := VFloat v]> ans)
              | None => Ok ans
              end;
        let ans := match feats_length fs with
                   | Some feat_id => <[feat_id := VInt (len word)]> ans
                   | None => ans
                   end in
        let ans := match feats_word fs !! word with
                   | Some feat_id => <[feat_id := VInt 1]> ans
                   | None => ans
                   end in
        Ok (ngram_scan fs word ans)
    end.

(** ** The script *)

(** The key of [sorted(vocab.items(), key=lambda x: x[1])]. *)
Definition by_id (a b : string * Z) : Prop := a.2 ≤ b.2.

#[global] Instance by_id_dec : RelDecision by_id.
Proof. intros a b. unfold by_id. apply _. Defined.

(** The whole run, up to the formatting of the output lines: the three
    loads, then the feature list of every word in the order of the ids. *)
Definition make_word_features `{PyRuntime}
    (vocab_file unigram_probs_file features_file : list string)
  : result (list (Z * gmap Z value)) :=
  vocab ← read_vocab vocab_file;
  unigram_probs ← read_unigram_probs unigram_probs_file;
  fs ← read_features features_file;
  for_each (λ out '(word, idx),
              feature_list ← get_feature_list fs unigram_probs word idx;
              Ok (out ++ [(idx, feature_list)])%list)
           (merge_sort by_id (map_to_list vocab)) [].

(** ** A runtime to evaluate the script on concrete files

    [sample_float] reads plain decimal literals (an optional minus sign,
    digits, at most one point) whose digits make an integer below 2^53 with
    at most 15 digits after the point: there the quotient of two exactly
    represented integers is the correctly rounded value, as [float()] gives
    it. It refuses every other literal. [sample_log] is exact at 1.0 and
    says nothing elsewhere (nan). The general theorems do not depend on
    either. *)

Fixpoint decimal_digits (s : string) (m k : Z) (after_point seen_digit : bool)
  : option (Z * Z) :=
  match s with
  | EmptyString => if seen_digit then Some (m, k) else None
  | String c s' =>
      match digit_of c with
      | Some d =>
          decimal_digits s' (10 * m + d) (if after_point then k + 1 else k)
                         after_point true
      | None =>
          if Ascii.eqb c "." && negb after_point
          then decimal_digits s' m k true seen_digit
          else None
      end
  end.

Definition float_of_Z (z : Z) : float := PrimFloat.of_uint63 (Uint63.of_Z z).

Definition sample_float (s : string) : option float :=
  let '(neg, body) := match s with
                      | String "-" s' => (true, s')
                      | _ => (false, s)
                      end in
  match decimal_digits body 0 0 false false with
  | Some (m, k) =>
      if (m <? 2 ^ 53) && (k <=? 15) then
        let x := PrimFloat.div (float_of_Z m) (float_of_Z (10 ^ k)) in
        Some (if neg : bool then PrimFloat.opp x else x)
      else None
  | None => None
  end.

Definition sample_log (x : float) : float :=
  if PrimFloat.eqb x 1%float then 0%float else PrimFloat.nan.

Definition sample_runtime : PyRuntime :=
  {| float_of_string := sample_float; libm_log := sample_log |}.

(** [s * n] *)
Fixpoint str_times (s : string) (n : nat) : string :=
  match n with
  | O => ""
  | S n' => s ++ str_times s n'
  end.

(** Three small files and the dictionary the third one is read into. *)
Definition sample_vocab_file : list string :=
  ["<eps> 0"; "<s> 1"; "cat 2"; "banana 3"].

Definition sample_unigram_probs_file : list string :=
  ["0 1.0"; "1 1.0"; "3 1.0"; "2 1.0"].

Definition sample_features_file : list string :=
  ["0 constant 1.0"; "1 special <s>"; "3 unigram 2.0 1.0"; "5 length";
   "4 word cat"; "9 match an"; "7 initial c"; "8 final t"].

Definition sample_feats : feats := {|
  feats_constant := Some (0, 1%float);
  feats_special := {["<s>" := 1]};
  feats_unigram := Some (3, 2%float, 1%float);
  feats_length := Some 5;
  feats_word := {["cat" := 4]};
  feats_match := {["an" := 9]};
  feats_initial := {["c" := 7]};
  feats_final := {["t" := 8]};
  feats_min_ngram_order := 2;
  feats_max_ngram_order := 2
|}.

(** ** Vocabulary of the statements *)

(** The pairs [(pos, order)] the two nested loops go through, in order. *)
Definition scan_pairs (fs : feats) (word : string) : list (Z * Z) :=
  pos ← range 0 (len word + 1);
  order ← range (feats_min_ngram_order fs) (feats_max_ngram_order fs + 1);
  [(pos, order)].

(** The span at [p] is found in its dict under [feat_id]: the loop body
    adds one to [ans[feat_id]]. *)
Definition fires (fs : feats) (word : string) (feat_id : Z) (p : Z * Z) : bool :=
  match ngram_span word p.1 p.2 with
  | Some (ngram_feats, feat) =>
      bool_decide (feats_ngram fs ngram_feats !! feat = Some feat_id)
  | None => false
  end.

(** The span at [p] is looked up in the dict [ty] as the string [g]. *)
Definition spans (word : string) (ty : ngram_type) (g : string) (p : Z * Z) : bool :=
  bool_decide (ngram_span word p.1 p.2 = Some (ty, g)).

(** The positions at which [g] occurs in [word]:
    [[i for i in range(len(word) - len(g) + 1) if word[i:i+len(g)] == g]]. *)
Definition occurrences (g word : string) : list Z :=
  filter (λ i, slice word i (i + len g) = g) (range 0 (len word - len g + 1)).

(** [ans[feat_id] += 1] seen from the key [feat_id] alone. *)
Definition incr_entry (o : option value) : option value :=
  Some (value_incr (default (VInt 0) o)).

(** Among the match, initial and final entries, [feat_id] is the id of
    the entry [g] of the dict [ty] and of no other entry. *)
Definition sole_ngram_use (fs : feats) (feat_id : Z) (ty : ngram_type)
    (g : string) : Prop :=
  feats_ngram fs ty !! g = Some feat_id
  ∧ ∀ ty' g', ty' ≠ Word → feats_ngram fs ty' !! g' = Some feat_id →
              ty' = ty ∧ g' = g.

(** [o] is the order of an entry of the match, initial or final dict. *)
Definition has_order (fs : feats) (o : Z) : Prop :=
  ∃ ty g, ty ≠ Word ∧ is_Some (feats_ngram fs ty !! g) ∧ ngram_order ty g = o.

(** The number of payload fields the description of the file format gives
    each feature type: constant one real; special, word, match, initial,
    final one string; unigram two reals; length none. *)
Definition payload_arity (feat_type : string) : option nat :=
  if decide (feat_type = "constant") then Some 1%nat
  else if decide (feat_type = "special") then Some 1%nat
  else if decide (feat_type = "unigram") then Some 2%nat
  else if decide (feat_type = "length") then Some 0%nat
  else match ngram_type_of feat_type with
       | Some _ => Some 1%nat
       | None => None
       end.

(** [min_ngram_order] is the least of 10000 and the orders of the entries,
    [max_ngram_order] the greatest of -1 and these orders. *)
Definition order_bounds (fs : feats) : Prop :=
  (∀ o, has_order fs o → feats_min_ngram_order fs ≤ o ≤ feats_max_ngram_order fs)
  ∧ (feats_min_ngram_order fs = 10000 ∨ has_order fs (feats_min_ngram_order fs))
  ∧ feats_min_ngram_order fs ≤ 10000
  ∧ (feats_max_ngram_order fs = -1 ∨ has_order fs (feats_max_ngram_order fs))
  ∧ -1 ≤ feats_max_ngram_order fs.

(** No key of the match, initial and final dicts is the empty string. *)
Definition ngram_keys_nonempty (fs : feats) : Prop :=
  ∀ ty g, ty ≠ Word → is_Some (feats_ngram fs ty !! g) → 1 ≤ len g.

(** A feature line that is not read: it has not 2, 3 or 4 fields, or fewer
    fields than the two leading ones and the payload of its type. *)
Definition rejected_fields (fields : list string) : Prop :=
  ¬ (length fields = 2 ∨ length fields = 3 ∨ length fields = 4)%nat
  ∨ ∃ feat_type k,
      fields !! 1%nat = Some feat_type ∧ payload_arity feat_type = Some k
      ∧ (length fields < 2 + k)%nat.

(** The unigram feature, when there is one, can be computed for [idx]: the
    probability is there, [math.log] is defined on it and the entropy is not
    zero. *)
Definition unigram_ready (fs : feats) (unigram_probs : list float) (idx : Z)
  : Prop :=
  match feats_unigram fs with
  | Some (_, entropy, _) =>
      ∃ p, getitem unigram_probs idx = Ok p
           ∧ PrimFloat.leb p 0%float = false
           ∧ PrimFloat.eqb entropy 0%float = false
  | None => True
  end.

(** [feat_id] is not the id of the constant, unigram or length feature,
    nor of the word feature of [word]. *)
Definition unshared (fs : feats) (word : string) (feat_id : Z) : Prop :=
  (∀ c v, feats_constant fs = Some (c, v) → c ≠ feat_id)
  ∧ (∀ u entropy scale, feats_unigram fs = Some (u, entropy, scale) → u ≠ feat_id)
  ∧ feats_length fs ≠ Some feat_id
  ∧ feats_word fs !! word ≠ Some feat_id.

(** A vocabulary line read as a record: a word and an integer id. *)
Definition vocab_record (line : string) : option (string * Z) :=
  match split line with
  | [w; n] => match py_int n with
              | Ok id => Some (w, id)
              | Raise _ => None
              end
  | _ => None
  end.

(** The id a probability line starts with. *)
Definition line_id (line : string) : option Z :=
  match split line with
  | f0 :: _ => match py_int f0 with
               | Ok idx => Some idx
               | Raise _ => None
               end
  | [] => None
  end.

(** [sorted(feature_list.items())]: the keys of a dict differ, so the pairs
    are ordered by their feature id alone. *)
Definition by_feat_id (a b : Z * value) : Prop := a.1 ≤ b.1.

#[global] Instance by_feat_id_dec : RelDecision by_feat_id.
Proof. intros a b. unfold by_feat_id. apply _. Defined.

Definition sorted_items (feature_list : gmap Z value) : list (Z * value) :=
  merge_sort by_feat_id (map_to_list feature_list).

(** What the script prints, line by line, before the numbers are turned
    into text: the id of a word and its pairs in the order of the line. *)
Definition output_records `{PyRuntime}
    (vocab_file unigram_probs_file features_file : list string)
  : result (list (Z * list (Z * value))) :=
  match make_word_features vocab_file unigram_probs_file features_file with
  | Ok out => Ok ((λ r, (r.1, sorted_items r.2)) <$> out)
  | Raise e => Raise e
  end.

(** [feat_id] is an id the dictionary gives to one of its features. *)
Definition is_feat_id (fs : feats) (feat_id : Z) : Prop :=
  (∃ value, feats_constant fs = Some (feat_id, value))
  ∨ (∃ w, feats_special fs !! w = Some feat_id)
  ∨ (∃ entropy scale, feats_unigram fs = Some (feat_id, entropy, scale))
  ∨ feats_length fs = Some feat_id
  ∨ (∃ ty g, feats_ngram fs ty !! g = Some feat_id).

(** A probability line read as a record: an integer id and a float. *)
Definition prob_record `{PyRuntime} (line : string) : option (Z * float) :=
  match split line with
  | [i; x] => match py_int i, float_of_string x with
              | Ok idx, Some p => Some (idx, p)
              | _, _ => None
              end
  | _ => None
  end.

(** The probability of the last record with the id [idx]. *)
Fixpoint last_prob (recs : list (Z * float)) (idx : Z) : option float :=
  match recs with
  | [] => None
  | (i, p) :: recs' =>
      match last_prob recs' idx with
      | Some q => Some q
      | None => if decide (i = idx) then Some p else None
      end
  end.

(** The eight feature types [read_features] knows. *)
Definition feature_types : list string :=
  ["constant"; "special"; "unigram"; "length"; "word"; "match"; "initial";
   "final"].

(** The dict the sample vocabulary file is read into. *)
Definition sample_vocab : gmap string Z :=
  list_to_map [("<eps>", 0); ("<s>", 1); ("cat", 2); ("banana", 3)].

(** What the script makes of the three sample files. *)
Definition sample_output : list (Z * gmap Z value) :=
  [(0, ∅);
   (1, {[0 := VFloat 1; 1 := VInt 1]});
   (2, {[0 := VFloat 1; 3 := VFloat 1; 4 := VInt 1; 5 := VInt 3;
         7 := VInt 1; 8 := VInt 1]});
   (3, {[0 := VFloat 1; 3 := VFloat 1; 5 := VInt 6; 9 := VInt 2]})].

(** * Properties *)

Ltac zbool_step :=
  first
    [ rewrite Z.gtb_ltb
    | rewrite Z.geb_leb
    | match goal with
      | |- context [?a <? ?b] => destruct (Z.ltb_spec a b)
      | |- context [?a <=? ?b] => destruct (Z.leb_spec a b)
      | |- context [?a =? ?b] => destruct (Z.eqb_spec a b)
      end ].

Ltac zbool := repeat (zbool_step; simpl); try lia; try done.

(** ** The result monad and the loops *)

Lemma bind_Ok {A B : Type} (m : result A) (f : A → result B) (b : B) :
  m ≫= f = Ok b → ∃ a, m = Ok a ∧ f a = Ok b.
Proof. destruct m as [a|e]; [|done]. intros Hf. by exists a. Qed.

(** A property kept by every round of a loop holds when the loop ends. *)
Lemma for_each_invariant {S A : Type} (P : S → Prop) (body : S → A → result S)
    (l : list A) (st st' : S) :
  (∀ st x st', x ∈ l → P st → body st x = Ok st' → P st') →
  P st → for_each body l st = Ok st' → P st'.
Proof.
  revert st. induction l as [|x l IH]; intros st Hbody HP Hl; simpl in Hl.
  - by injection Hl as <-.
  - apply bind_Ok in Hl as (st1 & Hx & Hl).
    apply (IH st1); [|by eapply Hbody; [left|..]|done].
    intros st2 y st3 Hy. apply Hbody. by right.
Qed.

(** A round that raises whatever the state makes the loop raise. *)
Lemma for_each_raises {S A : Type} (body : S → A → result S) (l : list A)
    (x : A) (st : S) :
  x ∈ l → (∀ st, ∃ e, body st x = Raise e) → ∃ e, for_each body l st = Raise e.
Proof.
  intros Hx Hbody. revert st.
  induction l as [|y l IH]; intros st; [by apply elem_of_nil in Hx|].
  simpl. apply elem_of_cons in Hx as [<-|Hx].
  - destruct (Hbody st) as [e ->]. by exists e.
  - destruct (body st y) as [st'|e]; [by apply IH|by exists e].
Qed.

(** ** Strings and ranges *)

Lemma length_substring (s : string) (n m : nat) :
  (n + m ≤ String.length s)%nat → String.length (String.substring n m s) = m.
Proof.
  revert n m. induction s as [|c s IH]; intros n m Hle; simpl in *.
  - assert (n = 0 ∧ m = 0)%nat as [-> ->] by lia. done.
  - destruct n as [|n]; [destruct m as [|m]; [done|]|].
    + simpl. f_equal. apply IH. lia.
    + apply IH. lia.
Qed.

Lemma len_nonneg (s : string) : 0 ≤ len s.
Proof. unfold len. lia. Qed.

Lemma len_slice (word : string) (b e : Z) :
  0 ≤ b → b ≤ e → e ≤ len word → len (slice word b e) = e - b.
Proof.
  intros Hb Hbe He. unfold slice, slice_bound.
  destruct (Z.ltb_spec b 0); [lia|]. destruct (Z.ltb_spec e 0); [lia|].
  rewrite !Z.min_l by lia. unfold len in *.
  rewrite length_substring; lia.
Qed.

Lemma len_0 (s : string) : len s = 0 → s = "".
Proof. destruct s; [done|]. unfold len. simpl. lia. Qed.

Lemma elem_of_range (start stop i : Z) : i ∈ range start stop ↔ start ≤ i < stop.
Proof. unfold range. rewrite elem_of_seqZ. lia. Qed.

Lemma NoDup_range (start stop : Z) : NoDup (range start stop).
Proof. apply NoDup_seqZ. Qed.

Lemma split_nonempty (s w : string) : w ∈ split s → w ≠ "".
Proof.
  revert w. induction s as [|c s IH]; intros w; simpl; [by intros ?%elem_of_nil|].
  destruct (isspace c); [apply IH|].
  destruct (starts_field s).
  - destruct (split s) as [|v vs].
    + by intros ->%list_elem_of_singleton.
    + intros [->|Hw]%elem_of_cons; [done|]. apply IH. by right.
  - intros [->|Hw]%elem_of_cons; [done|]. by apply IH.
Qed.

Lemma getitem_Ok {A : Type} (l : list A) (i : Z) (x : A) :
  getitem l i = Ok x → x ∈ l.
Proof.
  unfold getitem. destruct (_ <? 0); [done|].
  destruct (l !! _) as [y|] eqn:Hy; [|done].
  intros [= <-]. by eapply list_elem_of_lookup_2.
Qed.

Lemma py_int_raises (s : string) (e : error) : py_int s = Raise e → e = ValueError.
Proof. unfold py_int. destruct (match s with "" => _ | _ => _ end); by intros [=]. Qed.

Lemma getitem_lookup {A : Type} (l : list A) (i : Z) (x : A) :
  0 ≤ i → getitem l i = Ok x → l !! Z.to_nat i = Some x.
Proof.
  intros Hi. unfold getitem. destruct (Z.ltb_spec i 0); [lia|].
  destruct (Z.ltb_spec i 0); [lia|].
  destruct (l !! Z.to_nat i); [|done]. by intros [= ->].
Qed.

Lemma ngram_type_of_Some (feat_type : string) (ty : ngram_type) :
  ngram_type_of feat_type = Some ty →
  feat_type = match ty with
              | Word => "word" | Match => "match"
              | Initial => "initial" | Final => "final"
              end.
Proof. unfold ngram_type_of. repeat case_decide; by intros [= <-]. Qed.

(** ** The n-gram loop *)

(** What a span that is looked up looks like, by the dict it goes to. *)
Lemma ngram_span_Some (word : string) (pos order : Z) (ty : ngram_type)
    (feat : string) :
  ngram_span word pos order = Some (ty, feat) ↔
    (ty = Initial ∧ pos - order + 1 = -1 ∧ 0 < pos + 1 ≤ len word
       ∧ feat = slice word 0 (pos + 1))
    ∨ (ty = Final ∧ 0 ≤ pos - order + 1 < len word ∧ len word < pos + 1
       ∧ feat = slice word (pos - order + 1) (len word))
    ∨ (ty = Match ∧ 0 ≤ pos - order + 1 < pos + 1 ∧ pos + 1 ≤ len word
       ∧ feat = slice word (pos - order + 1) (pos + 1)).
Proof.
  unfold ngram_span. pose proof (len_nonneg word) as Hl. split.
  - intros Hsp. revert Hsp. zbool; intros [= <- <-].
    + left. repeat split; lia.
    + right; left. repeat split; lia.
    + right; right. repeat split; lia.
  - intros [(-> & Hs & Hp & ->)|[(-> & Hs & Hp & ->)|(-> & Hs & Hp & ->)]]; zbool.
Qed.


Lemma elem_of_scan_pairs (fs : feats) (word : string) (p : Z * Z) :
  p ∈ scan_pairs fs word ↔
    0 ≤ p.1 ≤ len word
    ∧ feats_min_ngram_order fs ≤ p.2 ≤ feats_max_ngram_order fs.
Proof.
  unfold scan_pairs. destruct p as [pos order]. simpl.
  rewrite list_elem_of_bind. split.
  - intros (pos' & Hin & Hpos). apply list_elem_of_bind in Hin.
    destruct Hin as (order' & Hin & Hord).
    apply list_elem_of_singleton in Hin. injection Hin as -> ->.
    apply elem_of_range in Hpos, Hord. lia.
  - intros [Hpos Hord]. exists pos. split; [|apply elem_of_range; lia].
    apply list_elem_of_bind. exists order.
    split; [by apply list_elem_of_singleton|apply elem_of_range; lia].
Qed.

Lemma NoDup_scan_pairs (fs : feats) (word : string) : NoDup (scan_pairs fs word).
Proof.
  unfold scan_pairs. apply NoDup_bind; [| |apply NoDup_range].
  - intros pos1 pos2 p _ _ H1 H2.
    apply list_elem_of_bind in H1 as (o1 & H1 & _).
    apply list_elem_of_bind in H2 as (o2 & H2 & _).
    apply list_elem_of_singleton in H1, H2. congruence.
  - intros pos _. apply NoDup_bind; [| |apply NoDup_range].
    + intros o1 o2 p _ _ H1 H2.
      apply list_elem_of_singleton in H1, H2. congruence.
    + intros o _. apply NoDup_singleton.
Qed.

(** The nested loops are one loop over [scan_pairs]. *)
Lemma ngram_scan_pairs (fs : feats) (word : string) (ans : gmap Z value) :
  ngram_scan fs word ans
  = foldl (λ ans p, ngram_step fs word ans p.1 p.2) ans (scan_pairs fs word).
Proof.
  unfold ngram_scan, scan_pairs.
  generalize (range (feats_min_ngram_order fs) (feats_max_ngram_order fs + 1)).
  intros orders. revert ans.
  induction (range 0 (len word + 1)) as [|pos l IH]; intros ans; [done|].
  simpl. rewrite foldl_app, IH. f_equal.
  clear. revert ans. induction orders as [|o os IH]; intros ans; [done|].
  simpl. by rewrite IH.
Qed.

Lemma ngram_step_lookup (fs : feats) (word : string) (ans : gmap Z value)
    (pos order feat_id : Z) :
  ngram_step fs word ans pos order !! feat_id
  = if fires fs word feat_id (pos, order) then incr_entry (ans !! feat_id)
    else ans !! feat_id.
Proof.
  unfold ngram_step, fires. simpl.
  destruct (ngram_span word pos order) as [[ty feat]|]; [|done].
  destruct (feats_ngram fs ty !! feat) as [k|] eqn:Hk.
  - unfold incr. destruct (decide (k = feat_id)) as [->|Hne].
    + rewrite bool_decide_eq_true_2 by done. by rewrite lookup_insert_eq.
    + rewrite bool_decide_eq_false_2 by congruence. by rewrite lookup_insert_ne.
  - by rewrite bool_decide_eq_false_2.
Qed.

(** One key of the answer after the loop over any list of pairs: one
    increment for every pair that fires on it. *)
Lemma scan_lookup (fs : feats) (word : string) (feat_id : Z) (l : list (Z * Z))
    (ans : gmap Z value) :
  foldl (λ ans p, ngram_step fs word ans p.1 p.2) ans l !! feat_id
  = Nat.iter (length (filter (λ p, fires fs word feat_id p) l)) incr_entry
             (ans !! feat_id).
Proof.
  revert ans. induction l as [|[pos order] l IH]; intros ans; [done|].
  simpl. rewrite IH, ngram_step_lookup.
  destruct (fires fs word feat_id (pos, order)) eqn:Hf.
  - rewrite filter_cons_True by (by rewrite Hf). cbn [length].
    by rewrite Nat.iter_succ_r.
  - rewrite filter_cons_False by (rewrite Hf; by intros []). done.
Qed.

Lemma filter_none {A : Type} (P : A → Prop) `{∀ x, Decision (P x)} (l : list A) :
  (∀ x, ¬ P x) → filter P l = [].
Proof.
  intros HP. induction l as [|x l IH]; [done|]. by rewrite filter_cons_False.
Qed.

(** Two lists without repetition and with the same members are as long. *)
Lemma NoDup_same_length {A : Type} (l k : list A) :
  NoDup l → NoDup k → (∀ x, x ∈ l ↔ x ∈ k) → length l = length k.
Proof. intros Hl Hk Hlk. apply Permutation_length. by apply NoDup_Permutation. Qed.

Lemma NoDup_all_equal {A : Type} (l : list A) (x : A) :
  NoDup l → (∀ y, y ∈ l → y = x) → (length l ≤ 1)%nat.
Proof.
  intros Hnd Hall. destruct l as [|a [|b l]]; simpl; [lia..|].
  assert (a = x) as -> by (apply Hall; set_solver).
  assert (b = x) as -> by (apply Hall; set_solver).
  apply NoDup_cons in Hnd as [Hnd _]. set_solver.
Qed.

Lemma spans_Initial (word g : string) (p : Z * Z) :
  spans word Initial g p → p = (len g - 1, len g + 1).
Proof.
  unfold spans. intros Hs. apply bool_decide_unpack in Hs.
  apply ngram_span_Some in Hs as [(_ & Hst & Hp & ->)|[(? & _)|(? & _)]];
    [|done..].
  rewrite len_slice by lia. destruct p as [pos order]. simpl in *. f_equal; lia.
Qed.

Lemma spans_Final (fs : feats) (word g : string) (p : Z * Z) :
  p ∈ scan_pairs fs word → spans word Final g p → p = (len word, len g + 1).
Proof.
  unfold spans. intros Hin Hs. apply bool_decide_unpack in Hs.
  apply elem_of_scan_pairs in Hin as [Hpos _].
  apply ngram_span_Some in Hs as [(? & _)|[(_ & Hst & Hp & ->)|(? & _)]];
    [done| |done].
  rewrite len_slice by lia. destruct p as [pos order]. simpl in *. f_equal; lia.
Qed.

Lemma spans_Match (word g : string) (p : Z * Z) :
  spans word Match g p ↔
    p.2 = len g ∧ 1 ≤ len g ∧ 0 ≤ p.1 - len g + 1 ∧ p.1 + 1 ≤ len word
    ∧ slice word (p.1 - len g + 1) (p.1 - len g + 1 + len g) = g.
Proof.
  unfold spans. rewrite bool_decide_spec, ngram_span_Some. split.
  - intros [(? & _)|[(? & _)|(_ & Hst & Hp & ->)]]; [done..|].
    rewrite len_slice by lia.
    replace (p.2) with (p.1 + 1 - (p.1 - p.2 + 1)) at 1 by lia.
    split; [done|]. split; [lia|]. split; [lia|]. split; [lia|].
    f_equal; lia.
  - intros (Ho & Hg & Hst & Hp & Hsl). right; right. rewrite Ho.
    split; [done|]. split; [lia|]. split; [lia|].
    rewrite <- Hsl at 1. f_equal. lia.
Qed.

(** A span never goes to the word dict. *)
Lemma ngram_span_not_Word (word : string) (pos order : Z) (feat : string) :
  ngram_span word pos order ≠ Some (Word, feat).
Proof.
  intros Hs. apply ngram_span_Some in Hs as [(? & _)|[(? & _)|(? & _)]]; done.
Qed.

Lemma fires_sole_use (fs : feats) (word : string) (feat_id : Z)
    (ty : ngram_type) (g : string) (p : Z * Z) :
  sole_ngram_use fs feat_id ty g →
  fires fs word feat_id p ↔ spans word ty g p.
Proof.
  intros [Hg Hsole]. unfold fires, spans.
  destruct (ngram_span word p.1 p.2) as [[ty' feat]|] eqn:Hs.
  - rewrite !bool_decide_spec. split.
    + intros Hf. destruct (Hsole ty' feat) as [-> ->]; [|done..].
      intros ->. by apply ngram_span_not_Word in Hs.
    + by intros [= -> ->].
  - rewrite bool_decide_spec. split; [by intros []|done].
Qed.

(** The matches of the entry [g] of the match dict are the occurrences of
    [g] in the word, once [len(g)] is an order the loop goes through. *)
Lemma match_count (fs : feats) (word g : string) :
  1 ≤ len g →
  feats_min_ngram_order fs ≤ len g ≤ feats_max_ngram_order fs →
  length (filter (λ p, spans word Match g p) (scan_pairs fs word))
  = length (occurrences g word).
Proof.
  intros Hg Hord.
  rewrite <- (length_fmap (λ i, (i + len g - 1, len g)) (occurrences g word)).
  apply NoDup_same_length.
  - apply NoDup_filter, NoDup_scan_pairs.
  - apply NoDup_fmap_2_strong; [|apply NoDup_filter, NoDup_range].
    intros i j _ _ [=]. lia.
  - intros p. rewrite list_elem_of_filter, list_elem_of_fmap, elem_of_scan_pairs.
    rewrite spans_Match. unfold occurrences. split.
    + intros [(Ho & _ & Hst & Hp & Hsl) [Hpos _]].
      exists (p.1 - len g + 1). split.
      * destruct p as [pos order]. simpl in *. f_equal; lia.
      * apply list_elem_of_filter. split; [done|]. apply elem_of_range. lia.
    + intros (i & -> & Hi). apply list_elem_of_filter in Hi as [Hsl Hi].
      apply elem_of_range in Hi. simpl.
      replace (i + len g - 1 - len g + 1) with i by lia.
      repeat split; try lia. done.
Qed.

Section extraction.
Context `{PyRuntime}.

(** C3. A word whose id is 0 gets the empty feature vector, whatever the
    feature dictionary and the probability table hold. *)
Theorem get_feature_list_idx_0 (fs : feats) (unigram_probs : list float)
    (word : string) :
  get_feature_list fs unigram_probs word 0 = Ok ∅.
Proof. unfold get_feature_list. by rewrite Z.eqb_refl. Qed.

(** C1 (amended). A special word with a non-zero id gets its special
    feature with value 1 and, when a constant feature is configured, that
    constant feature (overwritten by the special feature when both use one
    id); it gets nothing else, whatever unigram, length, word and n-gram
    features are configured. *)
Theorem get_feature_list_special (fs : feats) (unigram_probs : list float)
    (word : string) (idx feat_id : Z) :
  idx ≠ 0 →
  feats_special fs !! word = Some feat_id →
  get_feature_list fs unigram_probs word idx
  = Ok (<[feat_id := VInt 1]>
          match feats_constant fs with
          | Some (const_id, value) => {[const_id := VFloat value]}
          | None => ∅
          end).
Proof.
  intros Hidx Hsp. unfold get_feature_list.
  destruct (Z.eqb_spec idx 0) as [->|_]; [done|].
  rewrite Hsp. destruct (feats_constant fs) as [[c v]|]; [|done].
  by rewrite insert_empty.
Qed.

(** C5. A span with [start < 0] and [end > len(word)] is skipped: the loop
    body leaves the answer as it is, whatever the match, initial, final and
    word dicts hold. *)
Theorem ngram_step_whole_word_skipped (fs : feats) (word : string)
    (ans : gmap Z value) (pos order : Z) :
  pos - order + 1 < 0 →
  pos + 1 > len word →
  ngram_span word pos order = None ∧ ngram_step fs word ans pos order = ans.
Proof.
  intros Hs He.
  assert (ngram_span word pos order = None) as Hn.
  { unfold ngram_span. zbool. }
  split; [done|]. unfold ngram_step. by rewrite Hn.
Qed.

End extraction.

Section ngram_loop.
Variable fs : feats.
Variable word : string.

Lemma boundary_count (ty : ngram_type) (g : string) :
  ty = Initial ∨ ty = Final →
  (length (filter (λ p, spans word ty g p) (scan_pairs fs word)) ≤ 1)%nat.
Proof.
  intros Hty.
  apply NoDup_all_equal
    with (x := match ty with Initial => (len g - 1, len g + 1)
                           | _ => (len word, len g + 1) end).
  - apply NoDup_filter, NoDup_scan_pairs.
  - intros p Hp. apply list_elem_of_filter in Hp as [Hs Hin].
    destruct Hty as [-> | ->].
    + by apply spans_Initial in Hs.
    + by apply (spans_Final fs) in Hs.
Qed.

(** C10. For one order, the only span that goes to the initial dict is the
    one at [pos = order - 2], the prefix of length [order - 1] (there is one
    when [1 <= order - 1 <= len(word)]), and the only span that goes to the
    final dict is the one at [pos = len(word)], the suffix of length
    [order - 1]. So over the whole loop an entry of the initial or of the
    final dict is matched at most once, and a feature id that only such an
    entry uses is incremented at most once. *)
Theorem initial_final_at_most_once (order : Z) :
  (∀ pos feat,
     ngram_span word pos order = Some (Initial, feat) →
     pos = order - 2 ∧ order - 1 ≤ len word ∧ feat = slice word 0 (order - 1))
  ∧ (2 ≤ order → order - 1 ≤ len word →
     ngram_span word (order - 2) order = Some (Initial, slice word 0 (order - 1)))
  ∧ (∀ pos feat,
       0 ≤ pos ≤ len word →
       ngram_span word pos order = Some (Final, feat) →
       pos = len word ∧ order - 1 ≤ len word
       ∧ feat = slice word (len word - (order - 1)) (len word))
  ∧ (2 ≤ order → order - 1 ≤ len word →
     ngram_span word (len word) order
     = Some (Final, slice word (len word - (order - 1)) (len word)))
  ∧ (∀ ty g,
       ty = Initial ∨ ty = Final →
       (length (filter (λ p, spans word ty g p) (scan_pairs fs word)) ≤ 1)%nat)
  ∧ (∀ ty g feat_id ans,
       ty = Initial ∨ ty = Final →
       sole_ngram_use fs feat_id ty g →
       ngram_scan fs word ans !! feat_id = ans !! feat_id
       ∨ ngram_scan fs word ans !! feat_id = incr_entry (ans !! feat_id)).
Proof.
  split_and!.
  - intros pos feat Hs.
    apply ngram_span_Some in Hs as [(_ & Hst & Hp & ->)|[(? & _)|(? & _)]];
      [|done..].
    split; [lia|]. split; [lia|]. f_equal. lia.
  - intros Ho Hl. apply ngram_span_Some. left.
    split; [done|]. split; [lia|]. split; [lia|]. f_equal. lia.
  - intros pos feat Hpos Hs.
    apply ngram_span_Some in Hs as [(? & _)|[(_ & Hst & Hp & ->)|(? & _)]];
      [done| |done].
    assert (pos = len word) as -> by lia.
    split; [done|]. split; [lia|]. f_equal. lia.
  - intros Ho Hl. apply ngram_span_Some. right; left.
    split; [done|]. split; [lia|]. split; [lia|]. f_equal. lia.
  - apply boundary_count.
  - intros ty g feat_id ans Hty Hsole.
    rewrite ngram_scan_pairs, scan_lookup.
    rewrite (list_filter_iff _ (λ p, spans word ty g p))
      by (intros p; by apply fires_sole_use).
    pose proof (boundary_count ty g Hty) as Hle.
    destruct (length (filter _ (scan_pairs fs word))) as [|[|n]];
      [by left|by right|lia].
Qed.

End ngram_loop.

Section feature_dictionary.
Context `{PyRuntime}.

Lemma py_float_raises (s : string) (e : error) :
  py_float s = Raise e → e = ValueError.
Proof. unfold py_float. destruct (float_of_string s); by intros [=]. Qed.

Ltac inv_bind H :=
  let a := fresh "a" in
  let Ha := fresh "Ha" in
  apply bind_Ok in H as (a & Ha & H).

(** What a line that is read without an exception does to [feats]. *)
Lemma read_features_fields_Ok (fs fs' : feats) (fields : list string) :
  read_features_fields fs fields = Ok fs' →
  (∃ c, fs' = set_constant fs c)
  ∨ (∃ w feat_id, fs' = set_special fs w feat_id)
  ∨ (∃ u, fs' = set_unigram fs u)
  ∨ (∃ feat_id, fs' = set_length fs feat_id)
  ∨ (∃ w feat_id, fields !! 1%nat = Some "word" ∧ fs' = set_ngram fs Word w feat_id)
  ∨ (∃ ty g feat_id,
       ty ≠ Word ∧ g ∈ fields
       ∧ fs' = track_order (set_ngram fs ty g feat_id) (ngram_order ty g)).
Proof.
  unfold read_features_fields. intros Hr.
  case_decide as Hlen; [|done].
  inv_bind Hr. inv_bind Hr. inv_bind Hr.
  repeat case_decide.
  - inv_bind Hr. inv_bind Hr. injection Hr as <-. left. eauto.
  - inv_bind Hr. injection Hr as <-. right; left. eauto.
  - do 4 inv_bind Hr. injection Hr as <-. right; right; left. eauto.
  - injection Hr as <-. do 3 right; left. eauto.
  - destruct (ngram_type_of a1) as [ty|] eqn:Hty; [|done].
    inv_bind Hr. case_decide as Hw.
    + injection Hr as <-. do 4 right; left. subst ty.
      exists a2, a0. split; [|done].
      apply ngram_type_of_Some in Hty as ->.
      by apply (getitem_lookup fields 1).
    + injection Hr as <-. do 5 right. exists ty, a2, a0.
      split; [done|]. split; [|done]. by eapply getitem_Ok.
Qed.

Lemma track_order_min (fs : feats) (order : Z) :
  feats_min_ngram_order (track_order fs order)
  = Z.min (feats_min_ngram_order fs) order.
Proof.
  unfold track_order.
  destruct (Z.ltb_spec (feats_max_ngram_order fs) order); simpl; zbool.
Qed.

Lemma track_order_max (fs : feats) (order : Z) :
  feats_max_ngram_order (track_order fs order)
  = Z.max (feats_max_ngram_order fs) order.
Proof.
  unfold track_order.
  destruct (Z.ltb_spec (feats_max_ngram_order fs) order); simpl; zbool.
Qed.

Lemma track_order_ngram (fs : feats) (order : Z) (ty : ngram_type) :
  feats_ngram (track_order fs order) ty = feats_ngram fs ty.
Proof.
  unfold track_order.
  destruct (Z.ltb_spec (feats_max_ngram_order fs) order); simpl;
    destruct ty; zbool.
Qed.

Lemma set_ngram_lookup (fs : feats) (ty ty' : ngram_type) (g g' : string)
    (feat_id : Z) :
  feats_ngram (set_ngram fs ty g feat_id) ty' !! g'
  = if decide (ty' = ty ∧ g' = g) then Some feat_id
    else feats_ngram fs ty' !! g'.
Proof.
  case_decide as Hd.
  - destruct Hd as [-> ->]. destruct ty; simpl; apply lookup_insert_eq.
  - destruct ty, ty'; simpl; try done;
      (destruct (decide (g = g')) as [->|Hne];
       [by destruct Hd|by rewrite lookup_insert_ne]).
Qed.

Lemma has_order_same (fs fs' : feats) (o : Z) :
  (∀ ty, ty ≠ Word → feats_ngram fs' ty = feats_ngram fs ty) →
  has_order fs' o ↔ has_order fs o.
Proof.
  intros Hsame. unfold has_order.
  split; intros (ty & g & Hty & Hg & Ho); exists ty, g;
    (split; [done|]); (split; [|done]);
    [by rewrite <- Hsame|by rewrite Hsame].
Qed.

Lemma order_bounds_same (fs fs' : feats) :
  (∀ ty, ty ≠ Word → feats_ngram fs' ty = feats_ngram fs ty) →
  feats_min_ngram_order fs' = feats_min_ngram_order fs →
  feats_max_ngram_order fs' = feats_max_ngram_order fs →
  order_bounds fs → order_bounds fs'.
Proof.
  intros Hsame Hmin Hmax. unfold order_bounds. rewrite Hmin, Hmax.
  pose proof (λ o, has_order_same fs fs' o Hsame) as Hiff.
  intros (Hb & Hlo & ? & Hhi & ?). split_and!; try done.
  - intros o Ho. apply Hb. by apply Hiff.
  - destruct Hlo as [?|?]; [by left|right; by apply Hiff].
  - destruct Hhi as [?|?]; [by left|right; by apply Hiff].
Qed.

Lemma has_order_track (fs : feats) (ty : ngram_type) (g : string)
    (feat_id o : Z) :
  ty ≠ Word →
  has_order (track_order (set_ngram fs ty g feat_id) (ngram_order ty g)) o
  ↔ has_order fs o ∨ o = ngram_order ty g.
Proof.
  intros Hty. unfold has_order. split.
  - intros (ty' & g' & Hty' & Hg' & Ho).
    rewrite track_order_ngram, set_ngram_lookup in Hg'.
    case_decide as Hd; [destruct Hd as [-> ->]; by right|].
    left. by exists ty', g'.
  - intros [(ty' & g' & Hty' & Hg' & Ho)| ->].
    + exists ty', g'. split; [done|]. split; [|done].
      rewrite track_order_ngram, set_ngram_lookup. by case_decide.
    + exists ty, g. split; [done|]. split; [|done].
      rewrite track_order_ngram, set_ngram_lookup.
      by rewrite decide_True.
Qed.

Lemma order_bounds_track (fs : feats) (ty : ngram_type) (g : string)
    (feat_id : Z) :
  ty ≠ Word →
  order_bounds fs →
  order_bounds (track_order (set_ngram fs ty g feat_id) (ngram_order ty g)).
Proof.
  intros Hty (Hb & Hlo & Hle & Hhi & Hge). unfold order_bounds.
  rewrite track_order_min, track_order_max.
  cbn [feats_min_ngram_order feats_max_ngram_order set_ngram].
  pose proof (λ o, has_order_track fs ty g feat_id o Hty) as Hiff.
  split_and!.
  - intros o [Ho| ->]%Hiff; [|lia]. apply Hb in Ho. lia.
  - destruct (Z.min_spec (feats_min_ngram_order fs) (ngram_order ty g))
      as [[_ ->]|[_ ->]].
    + destruct Hlo as [?|?]; [by left|right; apply Hiff; by left].
    + right. apply Hiff. by right.
  - lia.
  - destruct (Z.max_spec (feats_max_ngram_order fs) (ngram_order ty g))
      as [[_ ->]|[_ ->]].
    + right. apply Hiff. by right.
    + destruct Hhi as [?|?]; [by left|right; apply Hiff; by left].
  - lia.
Qed.

Lemma order_bounds_step (fs fs' : feats) (fields : list string) :
  order_bounds fs → read_features_fields fs fields = Ok fs' → order_bounds fs'.
Proof.
  intros Hb Hr. apply read_features_fields_Ok in Hr
    as [[c ->]|[(w & i & ->)|[[u ->]|[[i ->]|[(w & i & _ & ->)|(ty & g & i & Hty & _ & ->)]]]]].
  - by apply (order_bounds_same fs).
  - by apply (order_bounds_same fs).
  - by apply (order_bounds_same fs).
  - by apply (order_bounds_same fs).
  - apply (order_bounds_same fs); try done. by intros [].
  - by apply order_bounds_track.
Qed.

Lemma keys_nonempty_step (fs fs' : feats) (line : string) :
  ngram_keys_nonempty fs → read_features_line fs line = Ok fs' →
  ngram_keys_nonempty fs'.
Proof.
  unfold read_features_line. intros Hk Hr. apply read_features_fields_Ok in Hr
    as [[c ->]|[(w & i & ->)|[[u ->]|[[i ->]|[(w & i & _ & ->)|(ty & g & i & Hty & Hg & ->)]]]]];
    try done.
  - intros ty g Hty Hg. apply (Hk ty g Hty). by destruct ty.
  - intros ty' g' Hty'. rewrite track_order_ngram, set_ngram_lookup.
    case_decide as Hd; [|by apply Hk].
    destruct Hd as [_ ->]. intros _. apply split_nonempty in Hg.
    pose proof (len_nonneg g).
    destruct (decide (len g = 0)) as [?%len_0|]; [done|lia].
Qed.

Lemma order_bounds_empty : order_bounds empty_feats.
Proof.
  unfold order_bounds. simpl. split_and!; try lia; try by left.
  intros o (ty & g & Hty & [i Hg] & _). by destruct ty.
Qed.

(** What holds of every dictionary that was read from a file. *)
Lemma read_features_invariant (features_file : list string) (fs : feats) :
  read_features features_file = Ok fs →
  order_bounds fs ∧ ngram_keys_nonempty fs.
Proof.
  unfold read_features. intros Hr. split.
  - eapply for_each_invariant; [|apply order_bounds_empty|exact Hr].
    intros st x st' _ Hst Hx. by eapply order_bounds_step.
  - eapply for_each_invariant; [| |exact Hr].
    + intros st x st' _ Hst Hx. by eapply keys_nonempty_step.
    + intros ty g Hty [i Hg]. by destruct ty.
Qed.

Lemma read_features_fields_rejected (fs : feats) (fields : list string) :
  rejected_fields fields →
  ∃ e, read_features_fields fs fields = Raise e
       ∧ (e = AssertionError FieldCount ∨ e = IndexError ∨ e = ValueError).
Proof.
  intros [Hlen|(t & k & Ht & Hk & Hlen)]; unfold read_features_fields.
  - rewrite decide_False by done. eauto.
  - destruct fields as [|f0 [|f1 [|f2 [|f3 [|f4 l]]]]]; simpl in *;
      try done; try (by eauto);
      injection Ht as ->; unfold payload_arity in Hk;
      (destruct (py_int f0) as [feat_id|e] eqn:Hint; cbn;
       [|apply py_int_raises in Hint as ->; by eauto 6]);
      repeat case_decide; simplify_eq; try lia; cbn; eauto 6;
      try (destruct (py_float f2) as [x|e] eqn:Hfl; cbn;
           [|apply py_float_raises in Hfl as ->]; by eauto 6);
      destruct (ngram_type_of _); simplify_eq; try lia; cbn; eauto 6.
Qed.

Lemma payload_arity_Some (feat_type : string) (k : nat) :
  payload_arity feat_type = Some k →
  (feat_type = "length" ∧ k = 0%nat)
  ∨ (feat_type ∈ ["constant"; "special"; "word"; "match"; "initial"; "final"]
     ∧ k = 1%nat)
  ∨ (feat_type = "unigram" ∧ k = 2%nat).
Proof.
  unfold payload_arity. repeat case_decide; simplify_eq; intros Hk;
    try (injection Hk as <-); [set_solver..|].
  destruct (ngram_type_of feat_type) as [ty|] eqn:Hty; [|done].
  injection Hk as <-. apply ngram_type_of_Some in Hty as ->.
  right; left. destruct ty; set_solver.
Qed.

Lemma read_features_fields_surplus (fs : feats) (fields : list string)
    (feat_type : string) (k : nat) :
  fields !! 1%nat = Some feat_type →
  payload_arity feat_type = Some k →
  (2 + k < length fields ≤ 4)%nat →
  read_features_fields fs fields = read_features_fields fs (take (2 + k) fields).
Proof.
  intros Ht Hk Hlen.
  apply payload_arity_Some in Hk as [[-> ->]|[[Hin ->]|[-> ->]]];
    destruct fields as [|f0 [|f1 [|f2 [|f3 [|f4 l]]]]]; simpl in *; try lia;
    injection Ht as ->; try done.
  all: repeat (apply elem_of_cons in Hin as [->|Hin]; [done|]).
  all: by apply elem_of_nil in Hin.
Qed.

Lemma read_features_fields_word (fs fs' : feats) (fields : list string) :
  fields !! 1%nat = Some "word" →
  read_features_fields fs fields = Ok fs' →
  ∃ w feat_id, fs' = set_ngram fs Word w feat_id.
Proof.
  intros Ht Hr. unfold read_features_fields in Hr.
  case_decide; [|done]. do 3 inv_bind Hr.
  apply (getitem_lookup fields 1) in Ha1; [|done].
  change (Z.to_nat 1) with 1%nat in Ha1. simplify_eq.
  repeat (case_decide; [done|]). cbn in Hr. inv_bind Hr.
  injection Hr as <-. eauto.
Qed.

Lemma bind_raises {A B : Type} (m : result A) (f : A → result B) :
  (∃ e, m = Raise e) → ∃ e, m ≫= f = Raise e.
Proof. intros [e ->]. by exists e. Qed.

(** C4 (amended). A vocabulary or probability line that does not have
    exactly two fields raises the field-count assertion, and so does a
    feature line that does not have two, three or four fields; a feature
    line with fewer fields than its type needs raises as well (an
    IndexError, unless [int] or [float] raise before). Any such line makes
    the load of its file fail. A feature line with more fields than its type
    needs, four at most, is read as if the surplus was not there. *)
Theorem wrong_field_count :
  (∀ vocab line,
     length (split line) ≠ 2%nat →
     read_vocab_line vocab line = Raise (AssertionError FieldCount))
  ∧ (∀ vocab_file line,
       line ∈ vocab_file → length (split line) ≠ 2%nat →
       ∃ e, read_vocab vocab_file = Raise e)
  ∧ (∀ unigram_probs line,
       length (split line) ≠ 2%nat →
       read_unigram_probs_line unigram_probs line
       = Raise (AssertionError FieldCount))
  ∧ (∀ unigram_probs_file line,
       line ∈ unigram_probs_file → length (split line) ≠ 2%nat →
       ∃ e, read_unigram_probs unigram_probs_file = Raise e)
  ∧ (∀ fs fields,
       ¬ (length fields = 2 ∨ length fields = 3 ∨ length fields = 4)%nat →
       read_features_fields fs fields = Raise (AssertionError FieldCount))
  ∧ (∀ fs fields,
       rejected_fields fields →
       ∃ e, read_features_fields fs fields = Raise e
            ∧ (e = AssertionError FieldCount ∨ e = IndexError ∨ e = ValueError))
  ∧ (∀ features_file line,
       line ∈ features_file → rejected_fields (split line) →
       ∃ e, read_features features_file = Raise e)
  ∧ (∀ fs fields feat_type k,
       fields !! 1%nat = Some feat_type →
       payload_arity feat_type = Some k →
       (2 + k < length fields ≤ 4)%nat →
       read_features_fields fs fields
       = read_features_fields fs (take (2 + k) fields)).
Proof.
  assert (∀ vocab line, length (split line) ≠ 2%nat →
            read_vocab_line vocab line = Raise (AssertionError FieldCount)) as Hv.
  { intros vocab line Hlen. unfold read_vocab_line. by rewrite decide_False. }
  assert (∀ unigram_probs line, length (split line) ≠ 2%nat →
            read_unigram_probs_line unigram_probs line
            = Raise (AssertionError FieldCount)) as Hp.
  { intros probs line Hlen. unfold read_unigram_probs_line.
    by rewrite decide_False. }
  split_and!.
  - exact Hv.
  - intros vocab_file line Hin Hlen. unfold read_vocab. apply bind_raises.
    apply (for_each_raises _ _ line); [done|]. intros st. rewrite Hv; eauto.
  - exact Hp.
  - intros file line Hin Hlen. unfold read_unigram_probs, fill_unigram_probs.
    apply bind_raises.
    apply (for_each_raises _ _ line); [done|]. intros st. rewrite Hp; eauto.
  - intros fs fields Hlen. unfold read_features_fields. by rewrite decide_False.
  - intros fs fields. apply read_features_fields_rejected.
  - intros file line Hin Hbad. unfold read_features.
    apply (for_each_raises _ _ line); [done|]. intros st.
    destruct (read_features_fields_rejected st (split line) Hbad) as (e & He & _).
    by exists e.
  - intros fs fields. apply read_features_fields_surplus.
Qed.

(** C7 (amended). After a feature dictionary is read, [min_ngram_order] is
    the least of 10000 and the orders of the match, initial and final
    entries, and [max_ngram_order] the greatest of -1 and these orders, the
    order of an entry being the length of its n-gram for a match entry and
    that length plus one for an initial or final entry. A word entry leaves
    both bounds as they are. *)
Theorem read_features_order_range (features_file : list string) (fs : feats) :
  read_features features_file = Ok fs →
  (∀ o, has_order fs o →
        feats_min_ngram_order fs ≤ o ≤ feats_max_ngram_order fs)
  ∧ (feats_min_ngram_order fs = 10000 ∨ has_order fs (feats_min_ngram_order fs))
  ∧ feats_min_ngram_order fs ≤ 10000
  ∧ (feats_max_ngram_order fs = -1 ∨ has_order fs (feats_max_ngram_order fs))
  ∧ -1 ≤ feats_max_ngram_order fs
  ∧ (∀ fs0 fs1 fields,
       fields !! 1%nat = Some "word" →
       read_features_fields fs0 fields = Ok fs1 →
       feats_min_ngram_order fs1 = feats_min_ngram_order fs0
       ∧ feats_max_ngram_order fs1 = feats_max_ngram_order fs0).
Proof.
  intros Hr. apply read_features_invariant in Hr as [(Hb & Hlo & Hle & Hhi & Hge) _].
  split_and!; try done.
  intros fs0 fs1 fields Hw Hf.
  by apply read_features_fields_word in Hf as (w & i & ->).
Qed.

End feature_dictionary.

Section ordinary_words.
Context `{PyRuntime}.

Lemma unigram_value_Ok (p entropy scale : float) :
  PrimFloat.leb p 0%float = false →
  PrimFloat.eqb entropy 0%float = false →
  unigram_value p entropy scale
  = Ok (PrimFloat.div
          (PrimFloat.mul (PrimFloat.add (libm_log p) entropy) scale) entropy).
Proof.
  intros Hp He. unfold unigram_value, math_log, float_div.
  rewrite Hp. cbn. by rewrite He.
Qed.

(** The answer of a word that is not special: the n-gram loop run on the
    features set before it. *)
Lemma get_feature_list_ordinary (fs : feats) (unigram_probs : list float)
    (word : string) (idx : Z) :
  idx ≠ 0 →
  feats_special fs !! word = None →
  unigram_ready fs unigram_probs idx →
  ∃ base,
    get_feature_list fs unigram_probs word idx = Ok (ngram_scan fs word base)
    ∧ (∀ feat_id, unshared fs word feat_id → base !! feat_id = None)
    ∧ (∀ u entropy scale p,
         feats_unigram fs = Some (u, entropy, scale) →
         getitem unigram_probs idx = Ok p →
         feats_length fs ≠ Some u → feats_word fs !! word ≠ Some u →
         base !! u
         = Some (VFloat (PrimFloat.div
                  (PrimFloat.mul (PrimFloat.add (libm_log p) entropy) scale)
                  entropy))).
Proof.
  intros Hidx Hsp Hu. unfold get_feature_list.
  destruct (Z.eqb_spec idx 0) as [|_]; [done|]. rewrite Hsp.
  unfold unigram_ready in Hu.
  destruct (feats_unigram fs) as [[[u entropy] scale]|] eqn:Hun.
  - destruct Hu as (p & Hp & Hlog & Hent). rewrite Hp. cbn.
    rewrite unigram_value_Ok by done. cbn.
    eexists. split; [done|]. split.
    + intros f (Hc & Hu & Hl & Hw).
      destruct (feats_word fs !! word) as [w|] eqn:Hfw;
        [rewrite lookup_insert_ne by congruence|];
        (destruct (feats_length fs) as [l|] eqn:Hfl;
         [rewrite lookup_insert_ne by congruence|]);
        (rewrite lookup_insert_ne by (by eapply Hu));
        (destruct (feats_constant fs) as [[c v]|] eqn:Hfc;
         [rewrite lookup_insert_ne by (by eapply Hc)|]); done.
    + intros u' e' s' p' [= <- <- <-] [= <-] Hl Hw.
      destruct (feats_word fs !! word) as [w|] eqn:Hfw;
        [rewrite lookup_insert_ne by congruence|];
        (destruct (feats_length fs) as [l|] eqn:Hfl;
         [rewrite lookup_insert_ne by congruence|]);
        by rewrite lookup_insert_eq.
  - cbn. eexists. split; [done|]. split; [|done].
    intros f (Hc & _ & Hl & Hw).
    destruct (feats_word fs !! word) as [w|] eqn:Hfw;
      [rewrite lookup_insert_ne by congruence|];
      (destruct (feats_length fs) as [l|] eqn:Hfl;
       [rewrite lookup_insert_ne by congruence|]);
      (destruct (feats_constant fs) as [[c v]|] eqn:Hfc;
       [rewrite lookup_insert_ne by (by eapply Hc)|]); done.
Qed.

Lemma scan_untouched (fs : feats) (word : string) (feat_id : Z)
    (ans : gmap Z value) :
  (∀ ty g, ty ≠ Word → feats_ngram fs ty !! g ≠ Some feat_id) →
  ngram_scan fs word ans !! feat_id = ans !! feat_id.
Proof.
  intros Hno. rewrite ngram_scan_pairs, scan_lookup.
  rewrite filter_none; [done|].
  intros p. unfold fires.
  destruct (ngram_span word p.1 p.2) as [[ty feat]|] eqn:Hs; [|by intros []].
  intros Hf%bool_decide_unpack. apply (Hno ty feat); [|done].
  intros ->. by apply ngram_span_not_Word in Hs.
Qed.

(** C6 (amended). For a word that is not special and whose id is not 0,
    and for which the unigram feature, when there is one, can be computed:
    when an n-gram of the match dict of a dictionary read from a file occurs
    in the word at exactly two positions, and its feature id is the id of no
    other feature (the constant, unigram or length feature, the word feature
    of this word, another match, initial or final entry), the answer has the
    value 2 under that id. *)
Theorem repeated_match_accumulates (features_file : list string) (fs : feats)
    (unigram_probs : list float) (word : string) (idx : Z) (g : string)
    (feat_id i j : Z) :
  read_features features_file = Ok fs →
  idx ≠ 0 →
  feats_special fs !! word = None →
  unigram_ready fs unigram_probs idx →
  sole_ngram_use fs feat_id Match g →
  unshared fs word feat_id →
  i ≠ j →
  (∀ k, 0 ≤ k ∧ k + len g ≤ len word ∧ slice word k (k + len g) = g
        ↔ k = i ∨ k = j) →
  ∃ ans,
    get_feature_list fs unigram_probs word idx = Ok ans
    ∧ ans !! feat_id = Some (VInt 2).
Proof.
  intros Hr Hidx Hsp Hu Hsole Hun Hij Hocc.
  destruct (get_feature_list_ordinary fs unigram_probs word idx)
    as (base & Hans & Hbase & _); [done..|].
  exists (ngram_scan fs word base). split; [done|].
  apply read_features_invariant in Hr as [(Hb & _) Hne].
  assert (is_Some (feats_ngram fs Match !! g)) as Hg
    by (destruct Hsole as [-> _]; eauto).
  assert (1 ≤ len g) as Hlen by (by apply (Hne Match)).
  assert (feats_min_ngram_order fs ≤ len g ≤ feats_max_ngram_order fs) as Hord.
  { apply Hb. by exists Match, g. }
  rewrite ngram_scan_pairs, scan_lookup, (Hbase _ Hun).
  rewrite (list_filter_iff _ (λ p, spans word Match g p))
    by (intros p; by apply fires_sole_use).
  rewrite match_count by done.
  assert (length (occurrences g word) = length [i; j]) as ->; [|done].
  apply NoDup_same_length.
  - apply NoDup_filter, NoDup_range.
  - apply NoDup_cons.
    split; [by intros ?%list_elem_of_singleton|apply NoDup_singleton].
  - intros k. unfold occurrences.
    rewrite list_elem_of_filter, elem_of_range, !elem_of_cons, elem_of_nil.
    specialize (Hocc k). split.
    + intros [Hsl Hk].
      assert (k = i ∨ k = j) as [->| ->];
        [apply Hocc; split; [lia|]; split; [lia|done]|by left|right; by left].
    + intros Hk. assert (k = i ∨ k = j) as Hk' by tauto.
      apply Hocc in Hk' as (? & ? & ?). split; [done|lia].
Qed.

End ordinary_words.

Section vocabulary.

Lemma read_vocab_line_record (vocab : gmap string Z) (line w : string) (id : Z) :
  vocab_record line = Some (w, id) →
  read_vocab_line vocab line
  = match vocab !! w with
    | Some _ => Raise (SystemExit (DuplicatedWord w))
    | None => Ok (<[w := id]> vocab)
    end.
Proof.
  unfold vocab_record, read_vocab_line.
  destruct (split line) as [|f0 [|f1 [|f2 l]]]; try done.
  destruct (py_int f1) as [z|] eqn:Hz; [|done]. intros [= -> ->].
  rewrite decide_True by done. unfold getitem. simpl.
  destruct (vocab !! w); [done|]. simpl. by rewrite Hz.
Qed.

(** Without a repeated word the loop inserts the records one by one. *)
Lemma read_vocab_loop_Ok (lines : list string) (recs : list (string * Z))
    (vocab : gmap string Z) :
  Forall2 (λ line r, vocab_record line = Some r) lines recs →
  NoDup recs.*1 →
  (∀ w, w ∈ recs.*1 → vocab !! w = None) →
  for_each read_vocab_line lines vocab = Ok (list_to_map recs ∪ vocab).
Proof.
  intros Hrecs. revert vocab.
  induction Hrecs as [|line [w id] lines recs Hr _ IH]; intros vocab Hnd Hfresh.
  - simpl. by rewrite (left_id_L ∅ (∪)).
  - cbn in Hnd. apply NoDup_cons in Hnd as [Hw Hnd]. simpl.
    rewrite (read_vocab_line_record _ _ w id Hr).
    rewrite Hfresh by (cbn; left). cbn. rewrite IH; [|done|].
    + f_equal. rewrite <- insert_union_l. symmetry. apply insert_union_r.
      by apply not_elem_of_list_to_map_1.
    + intros w' Hw'. rewrite lookup_insert_ne; [|by intros ->].
      apply Hfresh. cbn. by right.
Qed.

(** A word that is read a second time stops the loop. *)
Lemma read_vocab_loop_duplicate (lines : list string)
    (recs : list (string * Z)) (vocab : gmap string Z) :
  Forall2 (λ line r, vocab_record line = Some r) lines recs →
  ¬ NoDup recs.*1 ∨ (∃ w, w ∈ recs.*1 ∧ is_Some (vocab !! w)) →
  ∃ w, for_each read_vocab_line lines vocab = Raise (SystemExit (DuplicatedWord w))
       ∧ ((w ∈ recs.*1 ∧ is_Some (vocab !! w))
          ∨ ∃ l1 l2 l3, recs.*1 = l1 ++ w :: l2 ++ w :: l3)%list.
Proof.
  intros Hrecs. revert vocab.
  induction Hrecs as [|line [w id] lines recs Hr _ IH]; intros vocab Hbad.
  - destruct Hbad as [Hnd|(w & Hw & _)]; [destruct Hnd; constructor|].
    by apply elem_of_nil in Hw.
  - simpl. rewrite (read_vocab_line_record _ _ w id Hr).
    destruct (vocab !! w) as [i|] eqn:Hvw.
    { exists w. split; [done|]. left. split; [cbn; left|eauto]. }
    cbn. destruct (IH (<[w := id]> vocab)) as (w' & -> & Hw').
    + destruct Hbad as [Hnd|(w' & Hw' & Hin)].
      * destruct (decide (w ∈ recs.*1)) as [Hw|Hw].
        -- right. exists w. split; [done|]. rewrite lookup_insert_eq. eauto.
        -- left. intros Hnd'. apply Hnd. cbn. by apply NoDup_cons.
      * right. exists w'. cbn in Hw'. apply elem_of_cons in Hw' as [->|Hw'].
        -- rewrite Hvw in Hin. by destruct Hin.
        -- split; [done|]. rewrite lookup_insert_ne; [done|].
           intros ->. rewrite Hvw in Hin. by destruct Hin.
    + exists w'. split; [done|].
      destruct Hw' as [[Hin Hsome]|(l1 & l2 & l3 & Heq)].
      * destruct (decide (w = w')) as [<-|Hne].
        -- right. apply list_elem_of_split in Hin as (l2 & l3 & Heq).
           exists [], l2, l3. simpl. f_equal. exact Heq.
        -- left. rewrite lookup_insert_ne in Hsome by done.
           split; [cbn; by right|done].
      * right. exists (w :: l1), l2, l3. simpl. f_equal. exact Heq.
Qed.

Lemma check_ids_from (n : nat) (l : list Z) :
  for_each (λ _ '(idx, id),
              if idx =? id then Ok tt else Raise (AssertionError IdxEqId))
           (imap (λ i x, (Z.of_nat (n + i), x)) l) tt
  = if decide (l = seqZ (Z.of_nat n) (Z.of_nat (length l))) then Ok tt
    else Raise (AssertionError IdxEqId).
Proof.
  revert n. induction l as [|x l IH]; intros n; [done|].
  rewrite imap_cons. cbn [for_each length].
  rewrite (seqZ_cons (Z.of_nat n)) by lia.
  replace (Z.pred (Z.of_nat (S (length l)))) with (Z.of_nat (length l)) by lia.
  replace (Z.succ (Z.of_nat n)) with (Z.of_nat (S n)) by lia.
  rewrite Nat.add_0_r. destruct (Z.eqb_spec (Z.of_nat n) x) as [<-|Hne]; cbn.
  - rewrite (imap_ext _ (λ i x, (Z.of_nat (S n + i), x)))
      by (intros i y _; cbn; f_equal; lia).
    rewrite IH. destruct (decide (l = _)) as [Heq|Hneq].
    + rewrite decide_True; [done|]. by f_equal.
    + rewrite decide_False; [done|]. by intros [=].
  - rewrite decide_False; [done|]. by intros [=].
Qed.

Lemma check_ids_spec (l : list Z) :
  check_ids l = if decide (l = seqZ 0 (Z.of_nat (length l))) then Ok tt
                else Raise (AssertionError IdxEqId).
Proof. apply (check_ids_from 0). Qed.

Lemma sorted_Permutation (l k : list Z) : l ≡ₚ k → sorted l = sorted k.
Proof.
  intros Hlk. unfold sorted. apply (Sorted_unique Z.le).
  - apply Sorted_merge_sort; apply _.
  - apply Sorted_merge_sort; apply _.
  - by rewrite !merge_sort_Permutation.
Qed.

Lemma length_sorted (l : list Z) : length (sorted l) = length l.
Proof. unfold sorted. by rewrite merge_sort_Permutation. Qed.

(** C8. On a vocabulary file of two-field records (a word and an integer
    id): if a word is on two lines the load exits with the duplicated-word
    message, for a word that is on two lines; otherwise, with N words, it
    fails on the assertion on the ids unless the sorted ids are 0, ..., N-1;
    and otherwise it returns the dict of the records. *)
Theorem read_vocab_contract (vocab_file : list string) (recs : list (string * Z)) :
  mapM vocab_record vocab_file = Some recs →
  (¬ NoDup recs.*1 →
   ∃ w l1 l2 l3,
     recs.*1 = (l1 ++ w :: l2 ++ w :: l3)%list
     ∧ read_vocab vocab_file = Raise (SystemExit (DuplicatedWord w)))
  ∧ (NoDup recs.*1 →
     sorted recs.*2 ≠ seqZ 0 (Z.of_nat (length recs)) →
     read_vocab vocab_file = Raise (AssertionError IdxEqId))
  ∧ (NoDup recs.*1 →
     sorted recs.*2 = seqZ 0 (Z.of_nat (length recs)) →
     read_vocab vocab_file = Ok (list_to_map recs)).
Proof.
  intros Hrecs%mapM_Some.
  assert (NoDup recs.*1 →
          read_vocab vocab_file
          = if decide (sorted recs.*2 = seqZ 0 (Z.of_nat (length recs)))
            then Ok (list_to_map recs) else Raise (AssertionError IdxEqId)) as Hok.
  { intros Hnd. unfold read_vocab.
    rewrite (read_vocab_loop_Ok _ recs) by done. cbn.
    rewrite (right_id_L ∅ (∪)), check_ids_spec.
    assert (sorted (values (list_to_map recs : gmap string Z)) = sorted recs.*2)
      as ->.
    { apply sorted_Permutation. unfold values.
      by rewrite map_to_list_to_map. }
    rewrite length_sorted, length_fmap. by case_decide. }
  split_and!.
  - intros Hnd.
    destruct (read_vocab_loop_duplicate vocab_file recs ∅ Hrecs)
      as (w & Hw & [[_ [? Hl]]|(l1 & l2 & l3 & Heq)]); [by left|done|].
    exists w, l1, l2, l3. split; [done|]. unfold read_vocab. by rewrite Hw.
  - intros Hnd Hne. rewrite Hok by done. by rewrite decide_False.
  - intros Hnd Heq. rewrite Hok by done. by rewrite decide_True.
Qed.

End vocabulary.

Section unigram_probabilities.
Context `{PyRuntime}.

Lemma check_probs_spec (slots : list (option float)) :
  (None ∈ slots ∧ check_probs slots = Raise (AssertionError ProbNotNone))
  ∨ (∃ probs, slots = Some <$> probs ∧ check_probs slots = Ok probs).
Proof.
  induction slots as [|[p|] slots IH]; simpl.
  - right. by exists [].
  - destruct IH as [[Hin ->]|(probs & -> & ->)].
    + left. split; [by right|done].
    + right. by exists (p :: probs).
  - left. split; [by left|done].
Qed.

Lemma setitem_length {A : Type} (l l' : list A) (i : Z) (x : A) :
  setitem l i x = Ok l' → length l' = length l.
Proof.
  unfold setitem. destruct (_ || _); [done|]. intros [= <-].
  apply length_insert.
Qed.

(** One line makes the table as long as its id asks for. *)
Lemma read_unigram_probs_line_length (slots slots' : list (option float))
    (line : string) :
  read_unigram_probs_line slots line = Ok slots' →
  ∃ idx, line_id line = Some idx
         ∧ Z.of_nat (length slots') = Z.max (Z.of_nat (length slots)) (idx + 1).
Proof.
  unfold read_unigram_probs_line, line_id. intros Hr.
  case_decide as Hlen; [|done].
  destruct (split line) as [|f0 [|f1 [|f2 l]]]; try done.
  unfold getitem in Hr. simpl in Hr.
  destruct (py_int f0) as [idx|]; [|done]. simpl in Hr.
  destruct (py_float f1) as [p|]; [|done]. simpl in Hr.
  exists idx. split; [done|]. apply setitem_length in Hr as Hl. rewrite Hl.
  unfold setitem in Hr.
  destruct (Z.leb_spec (Z.of_nat (length slots)) idx).
  - rewrite length_app, length_replicate. lia.
  - destruct (Z.ltb_spec idx 0); [lia|]. lia.
Qed.

Lemma fill_length (lines : list string) (slots0 slots : list (option float)) :
  for_each read_unigram_probs_line lines slots0 = Ok slots →
  (length slots0 ≤ length slots)%nat
  ∧ (∀ line, line ∈ lines →
       ∃ idx, line_id line = Some idx ∧ idx < Z.of_nat (length slots))
  ∧ (length slots = length slots0
     ∨ ∃ line, line ∈ lines ∧ line_id line = Some (Z.of_nat (length slots) - 1)).
Proof.
  revert slots0. induction lines as [|line lines IH]; intros slots0 Hr.
  - injection Hr as <-. split; [done|]. split; [|by left].
    by intros line ?%elem_of_nil.
  - simpl in Hr. apply bind_Ok in Hr as (slots1 & Hline & Hr).
    apply read_unigram_probs_line_length in Hline as (idx & Hid & Hlen).
    apply IH in Hr as (Hle & Hall & Hlast). split; [lia|]. split.
    + intros line' [->|Hin]%elem_of_cons; [|by apply Hall].
      exists idx. split; [done|]. lia.
    + destruct Hlast as [Heq|(line' & Hin & Hid')].
      * destruct (decide (length slots1 = length slots0)) as [?|Hne];
          [left; lia|].
        right. exists line. split; [by left|]. rewrite Hid. f_equal. lia.
      * right. exists line'. split; [by right|done].
Qed.



End unigram_probabilities.

Section unigram_feature.
Context `{PyRuntime}.

Lemma getitem_at {A : Type} (l : list A) (i : Z) (x : A) :
  0 ≤ i → l !! Z.to_nat i = Some x → getitem l i = Ok x.
Proof.
  intros Hi Hx. unfold getitem. destruct (Z.ltb_spec i 0); [lia|].
  destruct (Z.ltb_spec i 0); [lia|]. by rewrite Hx.
Qed.

(** C9 (amended). For a word that is not special and whose id is positive,
    with a unigram feature [(feat_id, entropy, scale)]: when the table holds
    the probability [p] at the index of the id, [p] is not [<= 0] (so that
    [math.log] is defined on it), the entropy is not zero, and [feat_id] is
    not also the id of the length feature, of the word feature of this word
    or of a match, initial or final entry, the answer has
    [(log(p) + entropy) * scale / entropy] under [feat_id]. *)
Theorem unigram_feature_value (fs : feats) (unigram_probs : list float)
    (word : string) (idx feat_id : Z) (entropy scale p : float) :
  idx ≠ 0 →
  0 ≤ idx →
  feats_special fs !! word = None →
  feats_unigram fs = Some (feat_id, entropy, scale) →
  unigram_probs !! Z.to_nat idx = Some p →
  PrimFloat.leb p 0%float = false →
  PrimFloat.eqb entropy 0%float = false →
  feats_length fs ≠ Some feat_id →
  feats_word fs !! word ≠ Some feat_id →
  (∀ ty g, ty ≠ Word → feats_ngram fs ty !! g ≠ Some feat_id) →
  ∃ ans,
    get_feature_list fs unigram_probs word idx = Ok ans
    ∧ ans !! feat_id
      = Some (VFloat (PrimFloat.div
                        (PrimFloat.mul (PrimFloat.add (libm_log p) entropy) scale)
                        entropy)).
Proof.
  intros Hidx Hpos Hsp Hu Hp%getitem_at Hlog Hent Hl Hw Hng; [|done].
  destruct (get_feature_list_ordinary fs unigram_probs word idx)
    as (base & Hans & _ & Hbase); [done|done| |].
  { unfold unigram_ready. rewrite Hu. eauto. }
  exists (ngram_scan fs word base). split; [done|].
  rewrite scan_untouched by done. by eapply Hbase.
Qed.

End unigram_feature.

(** * The script on the sample files *)

Section runs.
Local Existing Instance sample_runtime.

Example read_sample_features : read_features sample_features_file = Ok sample_feats.
Proof. vm_compute. reflexivity. Qed.

Example run_sample_files :
  make_word_features sample_vocab_file sample_unigram_probs_file
                     sample_features_file
  = Ok [(0, ∅);
        (1, {[0 := VFloat 1; 1 := VInt 1]});
        (2, {[0 := VFloat 1; 3 := VFloat 1; 4 := VInt 1; 5 := VInt 3;
              7 := VInt 1; 8 := VInt 1]});
        (3, {[0 := VFloat 1; 3 := VFloat 1; 5 := VInt 6; 9 := VInt 2]})].
Proof. vm_compute. reflexivity. Qed.

(** A probability file without a line for id 0 is rejected. *)
Example read_unigram_probs_no_slot_0 :
  read_unigram_probs ["1 0.01"] = Raise (AssertionError ProbNotNone).
Proof. vm_compute. reflexivity. Qed.

(** Vocabularies that are rejected: two words with one id, a gap in the
    ids, a word on two lines. *)
Example read_vocab_same_id :
  read_vocab ["a 0"; "b 0"] = Raise (AssertionError IdxEqId).
Proof. vm_compute. reflexivity. Qed.

Example read_vocab_gap :
  read_vocab ["a 0"; "b 2"] = Raise (AssertionError IdxEqId).
Proof. vm_compute. reflexivity. Qed.

Example read_vocab_same_word :
  read_vocab ["a 0"; "a 1"] = Raise (SystemExit (DuplicatedWord "a")).
Proof. vm_compute. reflexivity. Qed.

(** The special word of the sample dictionary keeps the constant feature
    next to its own. *)
Lemma special_word_keeps_constant :
  read_features sample_features_file = Ok sample_feats
  ∧ feats_special sample_feats !! "<s>" = Some 1
  ∧ get_feature_list sample_feats [1%float; 1%float] "<s>" 1
    = Ok {[0 := VFloat 1; 1 := VInt 1]}
  ∧ ({[0 := VFloat 1; 1 := VInt 1]} : gmap Z value) !! 0 = Some (VFloat 1)
  ∧ size ({[0 := VFloat 1; 1 := VInt 1]} : gmap Z value) = 2%nat.
Proof. split_and!; vm_compute; reflexivity. Qed.

Lemma get_feature_list_special_witness :
  1 ≠ 0
  ∧ feats_special sample_feats !! "<s>" = Some 1
  ∧ get_feature_list sample_feats [] "<s>" 1
    = Ok (<[1 := VInt 1]> {[0 := VFloat 1]}).
Proof.
  split; [lia|]. split; [reflexivity|].
  apply (get_feature_list_special sample_feats [] "<s>" 1 1); [lia|reflexivity].
Defined.

Lemma ngram_step_whole_word_skipped_witness :
  3 - 5 + 1 < 0
  ∧ 3 + 1 > len "cat"
  ∧ ngram_span "cat" 3 5 = None
  ∧ ngram_step (set_ngram (set_ngram sample_feats Match "cat" 6) Word "cat" 4)
               "cat" ∅ 3 5 = ∅.
Proof.
  split; [lia|]. split; [reflexivity|].
  apply (ngram_step_whole_word_skipped _ "cat" ∅ 3 5); [lia|reflexivity].
Defined.



(** A length line with a third field is read; so is a constant line with a
    fourth. *)
Lemma surplus_fields_are_read :
  length (split "5 length extra") = 3%nat
  ∧ read_features ["5 length extra"] = Ok (set_length empty_feats 5)
  ∧ length (split "0 constant 1.0 2.0") = 4%nat
  ∧ read_features ["0 constant 1.0 2.0"]
    = Ok (set_constant empty_feats (0, 1%float)).
Proof. split_and!; vm_compute; reflexivity. Qed.

(** The only n-gram entry has order 10001, and [min_ngram_order] is 10000. *)
Lemma long_ngram_min_order :
  match read_features ["1 match " ++ str_times "a" (Z.to_nat 10001)] with
  | Ok fs =>
      feats_match fs !! str_times "a" (Z.to_nat 10001) = Some 1
      ∧ size (feats_match fs) = 1%nat
      ∧ size (feats_initial fs) = 0%nat
      ∧ size (feats_final fs) = 0%nat
      ∧ ngram_order Match (str_times "a" (Z.to_nat 10001)) = 10001
      ∧ feats_min_ngram_order fs = 10000
      ∧ feats_max_ngram_order fs = 10001
  | Raise _ => False
  end.
Proof. vm_compute. split_and!; reflexivity. Qed.

Lemma read_features_order_range_witness :
  read_features sample_features_file = Ok sample_feats
  ∧ (∀ o, has_order sample_feats o → 2 ≤ o ≤ 2)
  ∧ (2 = 10000 ∨ has_order sample_feats 2).
Proof.
  split; [exact read_sample_features|].
  destruct (read_features_order_range sample_features_file sample_feats
              read_sample_features) as (Hb & Hlo & _).
  split; [exact Hb|exact Hlo].
Defined.

Lemma sample_ngram_ids (feat_id : Z) (ty : ngram_type) (g : string) :
  ty ≠ Word → feats_ngram sample_feats ty !! g = Some feat_id →
  (feat_id = 9 ∧ ty = Match ∧ g = "an")
  ∨ (feat_id = 7 ∧ ty = Initial ∧ g = "c")
  ∨ (feat_id = 8 ∧ ty = Final ∧ g = "t").
Proof.
  intros Hty. destruct ty; [done|..]; simpl;
    intros [<- <-]%lookup_singleton_Some; tauto.
Defined.

Lemma an_in_banana (k : Z) :
  0 ≤ k ∧ k + len "an" ≤ len "banana" ∧ slice "banana" k (k + len "an") = "an"
  ↔ k = 1 ∨ k = 3.
Proof.
  change (len "an") with 2. change (len "banana") with 6. split.
  - intros (Hk & Hle & Hsl).
    assert (k = 0 ∨ k = 1 ∨ k = 2 ∨ k = 3 ∨ k = 4) as Hcases by lia.
    destruct Hcases as [->|[->|[->|[->| ->]]]];
      first [by left|by right|discriminate Hsl].
  - intros [-> | ->]; (split; [lia|]); (split; [lia|reflexivity]).
Defined.

Lemma repeated_match_accumulates_witness :
  ∃ ans,
    get_feature_list sample_feats [1%float; 1%float; 1%float; 1%float] "banana" 3
    = Ok ans
    ∧ ans !! 9 = Some (VInt 2).
Proof.
  apply (repeated_match_accumulates sample_features_file sample_feats
           [1%float; 1%float; 1%float; 1%float] "banana" 3 "an" 9 1 3).
  - exact read_sample_features.
  - lia.
  - reflexivity.
  - exists 1%float. split_and!; reflexivity.
  - split; [reflexivity|]. intros ty g Hty Hg.
    destruct (sample_ngram_ids 9 ty g Hty Hg) as [(_ & -> & ->)|[(? & _)|(? & _)]];
      [done|lia|lia].
  - split_and!.
    + intros c v [= <- _]. lia.
    + intros u e sc [= <- _ _]. lia.
    + intros [=].
    + intros [=].
  - lia.
  - exact an_in_banana.
Defined.

Lemma read_vocab_contract_witness :
  mapM vocab_record sample_vocab_file
  = Some [("<eps>", 0); ("<s>", 1); ("cat", 2); ("banana", 3)]
  ∧ read_vocab sample_vocab_file
    = Ok (list_to_map [("<eps>", 0); ("<s>", 1); ("cat", 2); ("banana", 3)]).
Proof.
  split; [reflexivity|].
  apply (read_vocab_contract sample_vocab_file
           [("<eps>", 0); ("<s>", 1); ("cat", 2); ("banana", 3)]).
  - reflexivity.
  - apply (bool_decide_unpack _). vm_compute. exact I.
  - reflexivity.
Defined.

Lemma unigram_feature_value_witness :
  [0.5%float; 0.25%float; 1%float; 0.125%float] !! 2%nat = Some 1%float
  ∧ ∃ ans,
      get_feature_list sample_feats
                       [0.5%float; 0.25%float; 1%float; 0.125%float] "cat" 2
      = Ok ans
      ∧ ans !! 3 = Some (VFloat 1).
Proof.
  split; [reflexivity|].
  destruct (unigram_feature_value sample_feats
              [0.5%float; 0.25%float; 1%float; 0.125%float]
              "cat" 2 3 2%float 1%float 1%float) as (ans & Hans & Hv).
  - lia.
  - lia.
  - reflexivity.
  - reflexivity.
  - reflexivity.
  - reflexivity.
  - reflexivity.
  - intros [=].
  - intros [=].
  - intros ty g Hty Hg.
    destruct (sample_ngram_ids 3 ty g Hty Hg) as [(? & _)|[(? & _)|(? & _)]]; lia.
  - exists ans. split; [exact Hans|exact Hv].
Defined.

(** With one id for the unigram and the length feature, the length of the
    word replaces the unigram value. *)
Lemma length_overwrites_unigram :
  ∃ fs,
    read_features ["3 unigram 2.0 1.0"; "3 length"] = Ok fs
    ∧ feats_unigram fs = Some (3, 2%float, 1%float)
    ∧ feats_special fs !! "cat" = None
    ∧ [0.5%float; 1%float] !! 1%nat = Some 1%float
    ∧ unigram_value 1%float 2%float 1%float = Ok 1%float
    ∧ get_feature_list fs [0.5%float; 1%float] "cat" 1 = Ok {[3 := VInt 3]}
    ∧ ({[3 := VInt 3]} : gmap Z value) !! 3 = Some (VInt 3)
    ∧ ({[3 := VInt 3]} : gmap Z value) !! 3 ≠ Some (VFloat 1).
Proof.
  eexists. split_and!; try (vm_compute; reflexivity).
  intros H. vm_compute in H. discriminate H.
Qed.

(** With one id for the constant feature and a match n-gram, the two
    matches of the n-gram are added to the constant. *)
Lemma shared_id_adds_to_constant :
  ∃ fs,
    read_features ["9 constant 0.5"; "9 match an"] = Ok fs
    ∧ feats_match fs !! "an" = Some 9
    ∧ feats_special fs !! "banana" = None
    ∧ occurrences "an" "banana" = [1; 3]
    ∧ get_feature_list fs [] "banana" 3 = Ok {[9 := VFloat 2.5]}
    ∧ ({[9 := VFloat 2.5]} : gmap Z value) !! 9 = Some (VFloat 2.5)
    ∧ ({[9 := VFloat 2.5]} : gmap Z value) !! 9 ≠ Some (VInt 2).
Proof.
  eexists. split_and!; try (vm_compute; reflexivity).
  intros H. vm_compute in H. discriminate H.
Qed.

End runs.

(** * More on the loaders and on the script *)

Section vocabulary_accepted.

Lemma read_vocab_line_Ok (vocab vocab' : gmap string Z) (line : string) :
  read_vocab_line vocab line = Ok vocab' →
  ∃ w id, vocab_record line = Some (w, id) ∧ vocab !! w = None
          ∧ vocab' = <[w := id]> vocab.
Proof.
  unfold read_vocab_line, vocab_record. case_decide as Hlen; [|done].
  destruct (split line) as [|w [|n [|f2 l]]]; try done.
  unfold getitem. simpl. destruct (vocab !! w) eqn:Hw; [done|]. simpl.
  destruct (py_int n) as [id|]; [|done]. intros [= <-]. by exists w, id.
Qed.

(** A loop that ends has read records with different words, none of them
    in the dict before. *)
Lemma read_vocab_loop_inv (lines : list string) (vocab0 vocab : gmap string Z) :
  for_each read_vocab_line lines vocab0 = Ok vocab →
  ∃ recs,
    Forall2 (λ line r, vocab_record line = Some r) lines recs
    ∧ NoDup recs.*1
    ∧ (∀ w, w ∈ recs.*1 → vocab0 !! w = None)
    ∧ vocab = list_to_map recs ∪ vocab0.
Proof.
  revert vocab0. induction lines as [|line lines IH]; intros vocab0 Hr.
  - injection Hr as <-. exists []. split; [constructor|].
    split; [constructor|]. split; [by intros w ?%elem_of_nil|].
    by rewrite list_to_map_nil, (left_id_L ∅ (∪)).
  - simpl in Hr. apply bind_Ok in Hr as (vocab1 & Hline & Hr).
    apply read_vocab_line_Ok in Hline as (w & id & Hrec & Hw & ->).
    apply IH in Hr as (recs & Hrecs & Hnd & Hfresh & ->).
    assert (w ∉ recs.*1) as Hnin.
    { intros Hin. apply Hfresh in Hin. by rewrite lookup_insert_eq in Hin. }
    exists ((w, id) :: recs). split; [by constructor|].
    split; [simpl; by apply NoDup_cons|]. split.
    + intros w' [->|Hin]%elem_of_cons; [done|].
      apply Hfresh in Hin. destruct (decide (w = w')) as [->|Hne].
      * by rewrite lookup_insert_eq in Hin.
      * by rewrite lookup_insert_ne in Hin.
    + simpl. rewrite <- insert_union_l. symmetry. apply insert_union_r.
      by apply not_elem_of_list_to_map_1.
Qed.

(** The ids of a vocabulary that was read, in order, are 0, 1, ... *)
Lemma read_vocab_ids (vocab_file : list string) (vocab : gmap string Z) :
  read_vocab vocab_file = Ok vocab →
  sorted (values vocab) = seqZ 0 (Z.of_nat (size vocab)).
Proof.
  unfold read_vocab. intros Hr. apply bind_Ok in Hr as (vocab' & _ & Hr).
  apply bind_Ok in Hr as ([] & Hc & [= <-]). rewrite check_ids_spec in Hc.
  case_decide as Heq; [|done]. rewrite Heq at 1.
  rewrite length_sorted. unfold values.
  by rewrite length_fmap, length_map_to_list.
Qed.

(** X1. A vocabulary file that is read without an error is made of
    two-field records (a word and an integer id) with different words whose
    ids, sorted, are 0, ..., N-1, and the dict that is returned is the dict
    of these records. *)
Theorem read_vocab_accepts (vocab_file : list string) (vocab : gmap string Z) :
  read_vocab vocab_file = Ok vocab →
  ∃ recs,
    mapM vocab_record vocab_file = Some recs
    ∧ NoDup recs.*1
    ∧ sorted recs.*2 = seqZ 0 (Z.of_nat (length recs))
    ∧ vocab = list_to_map recs.
Proof.
  intros Hr. pose proof (read_vocab_ids _ _ Hr) as Hids.
  unfold read_vocab in Hr. apply bind_Ok in Hr as (vocab' & Hloop & Hr).
  apply bind_Ok in Hr as (_ & _ & [= <-]).
  apply read_vocab_loop_inv in Hloop as (recs & Hrecs & Hnd & _ & ->).
  rewrite (right_id_L ∅ (∪)) in *.
  exists recs. split; [by apply mapM_Some|]. split; [done|]. split; [|done].
  rewrite <- (sorted_Permutation (values (list_to_map recs : gmap string Z)))
    by (unfold values; by rewrite map_to_list_to_map).
  rewrite Hids. by rewrite map_size_list_to_map.
Qed.

Lemma NoDup_snd_inj {A B : Type} (l : list (A * B)) (a b : A) (x : B) :
  NoDup l.*2 → (a, x) ∈ l → (b, x) ∈ l → a = b.
Proof.
  induction l as [|[c y] l IH]; simpl; intros Hnd Ha Hb;
    [by apply elem_of_nil in Ha|].
  apply NoDup_cons in Hnd as [Hy Hnd].
  apply elem_of_cons in Ha as [Ha|Ha], Hb as [Hb|Hb]; simplify_eq.
  - done.
  - destruct Hy. apply list_elem_of_fmap. by exists (b, y).
  - destruct Hy. apply list_elem_of_fmap. by exists (a, y).
  - by apply IH.
Qed.

(** X2. In a vocabulary that was read, every id lies between 0 and the
    number of words, every number in that range is the id of a word, and no
    two words have the same id. *)
Theorem read_vocab_bijection (vocab_file : list string) (vocab : gmap string Z) :
  read_vocab vocab_file = Ok vocab →
  (∀ w id, vocab !! w = Some id → 0 ≤ id < Z.of_nat (size vocab))
  ∧ (∀ id, 0 ≤ id < Z.of_nat (size vocab) → ∃ w, vocab !! w = Some id)
  ∧ (∀ w w' id, vocab !! w = Some id → vocab !! w' = Some id → w = w').
Proof.
  intros Hr. apply read_vocab_ids in Hr.
  assert (values vocab ≡ₚ seqZ 0 (Z.of_nat (size vocab))) as Hperm.
  { rewrite <- Hr. unfold sorted. by rewrite merge_sort_Permutation. }
  assert (∀ id, id ∈ values vocab ↔ ∃ w, vocab !! w = Some id) as Hval.
  { intros id. unfold values. rewrite list_elem_of_fmap. split.
    - intros ([w i] & -> & Hin). exists w. by apply elem_of_map_to_list.
    - intros [w Hw]. exists (w, id). split; [done|].
      by apply elem_of_map_to_list. }
  split_and!.
  - intros w id Hw. assert (id ∈ values vocab) as Hin by (apply Hval; eauto).
    rewrite Hperm in Hin. apply elem_of_seqZ in Hin. lia.
  - intros id Hid. apply Hval. rewrite Hperm. apply elem_of_seqZ. lia.
  - intros w w' id Hw Hw'. apply (NoDup_snd_inj (map_to_list vocab) w w' id).
    + change ((map_to_list vocab).*2) with (values vocab).
      rewrite Hperm. apply NoDup_seqZ.
    + by apply elem_of_map_to_list.
    + by apply elem_of_map_to_list.
Qed.

End vocabulary_accepted.

Section script.
Context `{PyRuntime}.

#[local] Instance by_id_total : Total by_id.
Proof. intros a b. unfold by_id. lia. Qed.

#[local] Instance by_feat_id_total : Total by_feat_id.
Proof. intros a b. unfold by_feat_id. lia. Qed.

(** The loop over the words adds one record for every word, in order. *)
Lemma features_loop (fs : feats) (unigram_probs : list float)
    (l : list (string * Z)) (acc out : list (Z * gmap Z value)) :
  for_each (λ out '(word, idx),
              feature_list ← get_feature_list fs unigram_probs word idx;
              Ok (out ++ [(idx, feature_list)])%list) l acc = Ok out →
  ∃ out',
    out = (acc ++ out')%list
    ∧ Forall2 (λ wi r, r.1 = wi.2
                       ∧ get_feature_list fs unigram_probs wi.1 wi.2 = Ok r.2)
              l out'.
Proof.
  revert acc. induction l as [|[word idx] l IH]; intros acc Hr; simpl in Hr.
  - injection Hr as <-. exists []. split; [by rewrite app_nil_r|constructor].
  - apply bind_Ok in Hr as (acc' & Hstep & Hr).
    apply bind_Ok in Hstep as (fl & Hfl & [= <-]).
    apply IH in Hr as (out' & -> & Hall). exists ((idx, fl) :: out').
    split; [by rewrite <- app_assoc|]. by constructor.
Qed.

Lemma Forall2_ids {A B : Type} (P : A * Z → Z * B → Prop) (l : list (A * Z))
    (k : list (Z * B)) :
  Forall2 (λ wi r, r.1 = wi.2 ∧ P wi r) l k → k.*1 = l.*2.
Proof.
  induction 1 as [|[w i] [j fl] l k [Hj _] _ IH]; [done|].
  rewrite !fmap_cons. simpl in Hj. by rewrite IH, Hj.
Qed.

Lemma sorted_by_id_ids (l : list (string * Z)) :
  (merge_sort by_id l).*2 = sorted l.*2.
Proof.
  apply (Sorted_unique Z.le).
  - apply (Sorted_fmap _ by_id); [done|]. apply Sorted_merge_sort; apply _.
  - apply Sorted_merge_sort; apply _.
  - unfold sorted. by rewrite !merge_sort_Permutation.
Qed.

(** X3. When the script runs to its end it has read the three files and
    made one record for every word of the vocabulary, in the order of the ids
    0, ..., N-1, each with the feature list [get_feature_list] returns for
    the word of that id. *)
Theorem make_word_features_output
    (vocab_file unigram_probs_file features_file : list string)
    (out : list (Z * gmap Z value)) :
  make_word_features vocab_file unigram_probs_file features_file = Ok out →
  ∃ vocab unigram_probs fs,
    read_vocab vocab_file = Ok vocab
    ∧ read_unigram_probs unigram_probs_file = Ok unigram_probs
    ∧ read_features features_file = Ok fs
    ∧ out.*1 = seqZ 0 (Z.of_nat (size vocab))
    ∧ ∀ idx feature_list,
        (idx, feature_list) ∈ out →
        ∃ word, vocab !! word = Some idx
                ∧ get_feature_list fs unigram_probs word idx = Ok feature_list.
Proof.
  unfold make_word_features. intros Hr.
  apply bind_Ok in Hr as (vocab & Hv & Hr).
  apply bind_Ok in Hr as (probs & Hp & Hr).
  apply bind_Ok in Hr as (fs & Hf & Hr).
  apply features_loop in Hr as (out' & -> & Hall). simpl.
  exists vocab, probs, fs. split_and!; try done.
  - rewrite <- (read_vocab_ids _ _ Hv). unfold values.
    rewrite <- sorted_by_id_ids.
    exact (Forall2_ids
             (λ wi r, get_feature_list fs probs wi.1 wi.2 = Ok r.2) _ _ Hall).
  - intros idx fl Hin. apply list_elem_of_lookup in Hin as [n Hn].
    destruct (Forall2_lookup_r _ _ _ _ _ Hall Hn) as ([word i] & Hl & Hi & Hfl).
    simpl in *. subst i. exists word. split; [|done].
    apply elem_of_map_to_list.
    rewrite <- (merge_sort_Permutation by_id). by eapply list_elem_of_lookup_2.
Qed.

Lemma Sorted_le_lt (l : list Z) : Sorted Z.le l → NoDup l → Sorted Z.lt l.
Proof.
  induction 1 as [|x l _ IH Hhd]; intros Hnd; [constructor|].
  apply NoDup_cons in Hnd as [Hx Hnd]. constructor; [by apply IH|].
  destruct Hhd as [|y l Hxy]; constructor.
  assert (x ≠ y) by (intros ->; apply Hx; by left). lia.
Qed.

Lemma sorted_items_spec (feature_list : gmap Z value) :
  Sorted Z.lt (sorted_items feature_list).*1
  ∧ ∀ f v, (f, v) ∈ sorted_items feature_list ↔ feature_list !! f = Some v.
Proof.
  unfold sorted_items. split.
  - apply Sorted_le_lt.
    + apply (Sorted_fmap _ by_feat_id); [done|].
      apply Sorted_merge_sort; apply _.
    + rewrite merge_sort_Permutation. apply NoDup_fst_map_to_list.
  - intros f v. rewrite merge_sort_Permutation. apply elem_of_map_to_list.
Qed.

(** X4. On every line the script prints, the pairs are the entries of the
    word's feature list, each once, in strictly ascending order of the
    feature ids. *)
Theorem output_records_sorted
    (vocab_file unigram_probs_file features_file : list string)
    (records : list (Z * list (Z * value))) :
  output_records vocab_file unigram_probs_file features_file = Ok records →
  ∃ out,
    make_word_features vocab_file unigram_probs_file features_file = Ok out
    ∧ Forall2 (λ o r, r.1 = o.1
                      ∧ Sorted Z.lt r.2.*1
                      ∧ ∀ f v, (f, v) ∈ r.2 ↔ o.2 !! f = Some v)
              out records.
Proof.
  unfold output_records.
  destruct (make_word_features _ _ _) as [out|e]; [|done].
  intros [= <-]. exists out. split; [done|].
  induction out as [|[idx fl] out IH]; constructor; [|done].
  simpl. split; [done|]. apply sorted_items_spec.
Qed.

End script.

Section feature_lines.
Context `{PyRuntime}.

Lemma for_each_app {S A : Type} (body : S → A → result S) (l k : list A) (st : S) :
  for_each body (l ++ k)%list st = for_each body l st ≫= for_each body k.
Proof.
  revert st. induction l as [|x l IH]; intros st; [done|].
  simpl. destruct (body st x) as [st'|e]; [apply IH|done].
Qed.

(** Every round of a loop that ends has ended. *)
Lemma for_each_rounds {S A : Type} (body : S → A → result S) (l : list A)
    (st st' : S) (x : A) :
  for_each body l st = Ok st' → x ∈ l → ∃ s s', body s x = Ok s'.
Proof.
  revert st. induction l as [|y l IH]; intros st Hr Hx;
    [by apply elem_of_nil in Hx|].
  simpl in Hr. apply bind_Ok in Hr as (st1 & Hy & Hr).
  apply elem_of_cons in Hx as [->|Hx]; [by exists st, st1|by eapply IH].
Qed.

Lemma ngram_type_of_feature_type (feat_type : string) (ty : ngram_type) :
  ngram_type_of feat_type = Some ty → feat_type ∈ feature_types.
Proof.
  intros ->%ngram_type_of_Some. unfold feature_types.
  destruct ty; by repeat constructor.
Qed.

Lemma read_features_fields_type (fs fs' : feats) (fields : list string) :
  read_features_fields fs fields = Ok fs' →
  ∃ feat_type, fields !! 1%nat = Some feat_type ∧ feat_type ∈ feature_types.
Proof.
  unfold read_features_fields. intros Hr. case_decide; [|done].
  apply bind_Ok in Hr as (f0 & _ & Hr). apply bind_Ok in Hr as (id & _ & Hr).
  apply bind_Ok in Hr as (t & Ht & Hr).
  apply (getitem_lookup fields 1) in Ht; [|done]. exists t. split; [done|].
  unfold feature_types.
  repeat case_decide; [subst; by repeat constructor..|].
  destruct (ngram_type_of t) as [ty|] eqn:Hty; [|done].
  by eapply ngram_type_of_feature_type.
Qed.

(** X5. A feature line with 2 to 4 fields and an integer id whose type is
    none of the eight types makes [read_features] exit with the message on
    the feature type; a dictionary that is read has one of the eight types
    on every line. *)
Theorem unknown_feature_type :
  (∀ fs fields f0 feat_id feat_type,
     (length fields = 2 ∨ length fields = 3 ∨ length fields = 4)%nat →
     fields !! 0%nat = Some f0 → py_int f0 = Ok feat_id →
     fields !! 1%nat = Some feat_type →
     feat_type ∉ feature_types →
     read_features_fields fs fields
     = Raise (SystemExit (ErrorFeatureType feat_type)))
  ∧ (∀ features_file fs line,
       read_features features_file = Ok fs → line ∈ features_file →
       ∃ feat_type,
         split line !! 1%nat = Some feat_type ∧ feat_type ∈ feature_types).
Proof.
  split.
  - intros fs fields f0 id t Hlen Hf0 Hid Ht Hnin.
    unfold read_features_fields. rewrite decide_True by done.
    destruct fields as [|f0' [|t' l]]; try done.
    simpl in Hf0, Ht. simplify_eq. unfold getitem at 1 2. simpl.
    rewrite Hid. simpl. unfold feature_types in Hnin.
    repeat (case_decide; [destruct Hnin; subst; by repeat constructor|]).
    destruct (ngram_type_of t) as [ty|] eqn:Hty; [|done].
    apply ngram_type_of_feature_type in Hty. done.
  - intros file fs line Hr Hin.
    destruct (for_each_rounds _ _ _ _ _ Hr Hin) as (s & s' & Hs).
    by eapply read_features_fields_type.
Qed.

Lemma track_order_fields (fs : feats) (order : Z) :
  feats_constant (track_order fs order) = feats_constant fs
  ∧ feats_special (track_order fs order) = feats_special fs
  ∧ feats_unigram (track_order fs order) = feats_unigram fs
  ∧ feats_length (track_order fs order) = feats_length fs.
Proof.
  unfold track_order.
  destruct (Z.ltb_spec (feats_max_ngram_order fs) order); simpl; zbool.
Qed.

#[local] Arguments getitem : simpl never.

(** X6. The last line of a dictionary that is read decides the entry it is
    about: the constant, unigram or length feature is the one of that line,
    and the special word or the n-gram of that line has the id of that line
    in its dict. *)
Theorem read_features_last_line (features_file : list string)
    (line f0 feat_type : string) (feat_id : Z) (fs : feats) :
  read_features (features_file ++ [line]) = Ok fs →
  split line !! 0%nat = Some f0 →
  py_int f0 = Ok feat_id →
  split line !! 1%nat = Some feat_type →
  (feat_type = "constant" →
   ∃ x value, split line !! 2%nat = Some x ∧ float_of_string x = Some value
              ∧ feats_constant fs = Some (feat_id, value))
  ∧ (feat_type = "special" →
     ∃ w, split line !! 2%nat = Some w ∧ feats_special fs !! w = Some feat_id)
  ∧ (feat_type = "unigram" →
     ∃ x y entropy scale,
       split line !! 2%nat = Some x ∧ float_of_string x = Some entropy
       ∧ split line !! 3%nat = Some y ∧ float_of_string y = Some scale
       ∧ feats_unigram fs = Some (feat_id, entropy, scale))
  ∧ (feat_type = "length" → feats_length fs = Some feat_id)
  ∧ (∀ ty, ngram_type_of feat_type = Some ty →
           ∃ g, split line !! 2%nat = Some g
                ∧ feats_ngram fs ty !! g = Some feat_id).
Proof.
  unfold read_features. rewrite for_each_app. intros Hr Hf0 Hid Ht.
  apply bind_Ok in Hr as (fs0 & _ & Hr). simpl in Hr.
  apply bind_Ok in Hr as (fs1 & Hr & [= <-]).
  unfold read_features_line, read_features_fields in Hr.
  case_decide as Hlen; [|done].
  destruct (split line) as [|f0' [|t' rest]]; try done.
  simpl in Hf0, Ht. simplify_eq.
  change (getitem (f0 :: feat_type :: rest) 0) with (Ok f0 : result string) in Hr.
  change (getitem (f0 :: feat_type :: rest) 1)
    with (Ok feat_type : result string) in Hr.
  simpl in Hr. rewrite Hid in Hr. simpl in Hr.
  split_and!.
  - intros ->. rewrite decide_True in Hr by done.
    apply bind_Ok in Hr as (x & Hx & Hr). apply bind_Ok in Hr as (v & Hv & [= <-]).
    apply (getitem_lookup _ 2) in Hx; [|done]. exists x, v.
    split; [done|]. split; [|done].
    unfold py_float in Hv. by destruct (float_of_string x); simplify_eq.
  - intros ->. rewrite decide_False, decide_True in Hr by done.
    apply bind_Ok in Hr as (w & Hw & [= <-]).
    apply (getitem_lookup _ 2) in Hw; [|done]. exists w.
    split; [done|]. simpl. apply lookup_insert_eq.
  - intros ->. rewrite !decide_False, decide_True in Hr by done.
    apply bind_Ok in Hr as (x & Hx & Hr). apply bind_Ok in Hr as (e & He & Hr).
    apply bind_Ok in Hr as (y & Hy & Hr). apply bind_Ok in Hr as (sc & Hsc & [= <-]).
    apply (getitem_lookup _ 2) in Hx; [|done].
    apply (getitem_lookup _ 3) in Hy; [|done].
    unfold py_float in He, Hsc.
    destruct (float_of_string x) eqn:Hfx; [|done].
    destruct (float_of_string y) eqn:Hfy; [|done].
    simplify_eq. by exists x, y, e, sc.
  - intros ->. rewrite !decide_False, decide_True in Hr by done.
    by injection Hr as <-.
  - intros ty Hty. pose proof (ngram_type_of_Some _ _ Hty) as Heq.
    rewrite !decide_False in Hr by (destruct ty; by subst).
    rewrite Hty in Hr. apply bind_Ok in Hr as (g & Hg & Hr).
    apply (getitem_lookup _ 2) in Hg; [|done]. exists g. split; [done|].
    case_decide; injection Hr as <-.
    + rewrite set_ngram_lookup. by rewrite decide_True.
    + rewrite track_order_ngram, set_ngram_lookup. by rewrite decide_True.
Qed.

End feature_lines.

Section probability_table.
Context `{PyRuntime}.

Lemma prob_record_Some (line : string) (idx : Z) (p : float) :
  prob_record line = Some (idx, p) →
  ∃ i x, split line = [i; x] ∧ py_int i = Ok idx ∧ py_float x = Ok p.
Proof.
  unfold prob_record, py_float.
  destruct (split line) as [|i [|x [|y l]]]; try done.
  destruct (py_int i) as [idx'|] eqn:Hi; [|done].
  destruct (float_of_string x) as [p'|] eqn:Hx; [|done].
  intros [= -> ->]. exists i, x. by rewrite Hx.
Qed.

(** A line with an id that is not negative: the table grows up to the id,
    and the slot of the id gets the probability. *)
Lemma read_unigram_probs_line_record (slots : list (option float))
    (line : string) (idx : Z) (p : float) :
  prob_record line = Some (idx, p) → 0 ≤ idx →
  read_unigram_probs_line slots line
  = Ok (<[Z.to_nat idx := Some p]>
          (slots ++ replicate (Z.to_nat (idx + 1) - length slots) None)%list).
Proof.
  intros (i & x & Hs & Hi & Hx)%prob_record_Some Hidx.
  unfold read_unigram_probs_line. rewrite Hs. rewrite decide_True by done.
  change (getitem [i; x] 0) with (Ok i : result string).
  change (getitem [i; x] 1) with (Ok x : result string).
  cbn [mbind result_bind]. rewrite Hi. cbn [mbind result_bind].
  rewrite Hx. cbn [mbind result_bind]. unfold setitem.
  destruct (Z.ltb_spec idx 0); [lia|].
  destruct (Z.leb_spec (Z.of_nat (length slots)) idx).
  - replace (Z.to_nat (idx + 1) - length slots)%nat
      with (Z.to_nat (idx - Z.of_nat (length slots) + 1)) by lia.
    rewrite length_app, length_replicate.
    destruct (Z.ltb_spec idx 0); [lia|].
    destruct (Z.leb_spec (Z.of_nat
      (length slots + Z.to_nat (idx - Z.of_nat (length slots) + 1))) idx);
      [lia|done].
  - replace (Z.to_nat (idx + 1) - length slots)%nat with 0%nat by lia.
    simpl. rewrite app_nil_r.
    destruct (Z.ltb_spec idx 0); [lia|].
    destruct (Z.leb_spec (Z.of_nat (length slots)) idx); [lia|done].
Qed.

Lemma grown_lookup (slots : list (option float)) (idx : Z) (p : float) (n : nat) :
  0 ≤ idx →
  <[Z.to_nat idx := Some p]>
    (slots ++ replicate (Z.to_nat (idx + 1) - length slots) None)%list !! n
  = if decide (Z.to_nat idx = n) then Some (Some p)
    else match slots !! n with
         | Some o => Some o
         | None => if decide (n < Z.to_nat (idx + 1))%nat then Some None else None
         end.
Proof.
  intros Hidx. case_decide as Hn.
  - subst n. apply list_lookup_insert_eq.
    rewrite length_app, length_replicate. lia.
  - rewrite list_lookup_insert_ne by done.
    destruct (slots !! n) as [o|] eqn:Ho.
    + by rewrite (lookup_app_l_Some _ _ _ _ Ho).
    + apply lookup_ge_None in Ho. rewrite lookup_app_r by done.
      case_decide.
      * rewrite lookup_replicate_2; [done|lia].
      * apply lookup_ge_None. rewrite length_replicate. lia.
Qed.

(** The slots after the loop: the last probability read for the id of the
    slot, the slot as it was before where no line has its id, and an empty
    slot where the table grew over it. *)
Lemma fill_lookup (lines : list string) (recs : list (Z * float))
    (slots0 slots : list (option float)) (n : nat) :
  Forall2 (λ line r, prob_record line = Some r) lines recs →
  Forall (λ r, 0 ≤ r.1) recs →
  for_each read_unigram_probs_line lines slots0 = Ok slots →
  slots !! n
  = match last_prob recs (Z.of_nat n) with
    | Some p => Some (Some p)
    | None => match slots0 !! n with
              | Some o => Some o
              | None => if decide (n < length slots)%nat then Some None else None
              end
    end.
Proof.
  intros Hrecs. revert slots0.
  induction Hrecs as [|line [idx p] lines recs Hrec _ IH]; intros slots0 Hpos Hr.
  - injection Hr as <-. simpl. destruct (slots0 !! n) eqn:Hn; [done|].
    apply lookup_ge_None in Hn. by rewrite decide_False by lia.
  - apply Forall_cons in Hpos as [Hidx Hpos]. simpl in Hidx, Hr.
    rewrite (read_unigram_probs_line_record _ _ idx p) in Hr by done.
    cbn [mbind result_bind] in Hr.
    pose proof (fill_length _ _ _ Hr) as (Hlen & _).
    rewrite length_insert, length_app, length_replicate in Hlen.
    rewrite (IH _ Hpos Hr). simpl.
    destruct (last_prob recs (Z.of_nat n)) as [q|]; [done|].
    rewrite grown_lookup by done.
    destruct (decide (idx = Z.of_nat n)) as [->|Hne].
    + by rewrite decide_True by lia.
    + rewrite decide_False by lia.
      destruct (slots0 !! n) as [o|]; [done|].
      destruct (decide (n < Z.to_nat (idx + 1))%nat); [|done].
      by rewrite decide_True by lia.
Qed.

(** X7. For a probability file of two-field records (an integer id that
    is not negative and a float) that is read without an error, the table
    holds under every id the probability of the last line with that id, and
    nothing beyond the largest id. *)
Theorem read_unigram_probs_table (unigram_probs_file : list string)
    (recs : list (Z * float)) (unigram_probs : list float) (n : nat) :
  mapM prob_record unigram_probs_file = Some recs →
  Forall (λ r, 0 ≤ r.1) recs →
  read_unigram_probs unigram_probs_file = Ok unigram_probs →
  unigram_probs !! n = last_prob recs (Z.of_nat n).
Proof.
  intros Hrecs%mapM_Some Hpos Hr. unfold read_unigram_probs in Hr.
  apply bind_Ok in Hr as (slots & Hfill & Hcheck).
  pose proof (fill_lookup _ _ _ _ n Hrecs Hpos Hfill) as Hn.
  destruct (check_probs_spec slots) as [[_ Hc]|(probs & -> & Hc)];
    rewrite Hc in Hcheck; [done|]. injection Hcheck as <-.
  rewrite list_lookup_fmap in Hn. rewrite lookup_nil in Hn.
  destruct (last_prob recs (Z.of_nat n)) as [q|].
  - destruct (probs !! n); simpl in Hn; congruence.
  - case_decide; destruct (probs !! n); simpl in Hn; congruence.
Qed.

(** X8. A probability line with a negative id does not fail as such: it
    counts from the end of the table as it is when the line is read, and
    replaces the probability in that slot; it raises an IndexError only when
    the table is shorter than that. *)
Theorem negative_probability_id (slots : list (option float)) (line : string)
    (idx : Z) (p : float) :
  prob_record line = Some (idx, p) →
  idx < 0 →
  read_unigram_probs_line slots line
  = if decide (- idx ≤ Z.of_nat (length slots))
    then Ok (<[Z.to_nat (Z.of_nat (length slots) + idx) := Some p]> slots)
    else Raise IndexError.
Proof.
  intros (i & x & Hs & Hi & Hx)%prob_record_Some Hidx.
  unfold read_unigram_probs_line. rewrite Hs. rewrite decide_True by done.
  change (getitem [i; x] 0) with (Ok i : result string).
  change (getitem [i; x] 1) with (Ok x : result string).
  cbn [mbind result_bind]. rewrite Hi. cbn [mbind result_bind].
  rewrite Hx. cbn [mbind result_bind]. unfold setitem.
  destruct (Z.leb_spec (Z.of_nat (length slots)) idx); [lia|].
  destruct (Z.ltb_spec idx 0); [|lia]. rewrite (Z.add_comm idx).
  destruct (Z.ltb_spec (Z.of_nat (length slots) + idx) 0).
  - simpl. by rewrite decide_False by lia.
  - destruct (Z.leb_spec (Z.of_nat (length slots))
                         (Z.of_nat (length slots) + idx)); [lia|].
    simpl. by rewrite decide_True by lia.
Qed.

End probability_table.

Section feature_list.
Context `{PyRuntime}.

(** The answer of a word that is not special, with what was set before the
    n-gram loop: of two features with one id the one that is set later
    stays. *)
Lemma get_feature_list_head (fs : feats) (unigram_probs : list float)
    (word : string) (idx : Z) :
  idx ≠ 0 →
  feats_special fs !! word = None →
  unigram_ready fs unigram_probs idx →
  ∃ base,
    get_feature_list fs unigram_probs word idx = Ok (ngram_scan fs word base)
    ∧ (∀ w, feats_word fs !! word = Some w → base !! w = Some (VInt 1))
    ∧ (∀ l, feats_length fs = Some l → feats_word fs !! word ≠ Some l →
            base !! l = Some (VInt (len word)))
    ∧ (∀ c v, feats_constant fs = Some (c, v) →
              (∀ u entropy scale,
                 feats_unigram fs = Some (u, entropy, scale) → u ≠ c) →
              feats_length fs ≠ Some c → feats_word fs !! word ≠ Some c →
              base !! c = Some (VFloat v))
    ∧ (∀ f, is_Some (base !! f) →
            (∃ v, feats_constant fs = Some (f, v))
            ∨ (∃ entropy scale, feats_unigram fs = Some (f, entropy, scale))
            ∨ feats_length fs = Some f
            ∨ feats_word fs !! word = Some f).
Proof.
  intros Hidx Hsp Hu. unfold get_feature_list.
  destruct (Z.eqb_spec idx 0) as [|_]; [done|]. rewrite Hsp.
  unfold unigram_ready in Hu.
  assert (∃ mid : gmap Z value,
    (match feats_unigram fs with
     | Some (feat_id, entropy, scale) =>
         p ← getitem unigram_probs idx;
         v ← unigram_value p entropy scale;
         Ok (<[feat_id := VFloat v]>
               match feats_constant fs with
               | Some (feat_id, value) => <[feat_id := VFloat value]> ∅
               | None => ∅
               end)
     | None => Ok match feats_constant fs with
                  | Some (feat_id, value) => <[feat_id := VFloat value]> ∅
                  | None => ∅
                  end
     end) = Ok mid
    ∧ (∀ c v, feats_constant fs = Some (c, v) →
              (∀ u entropy scale,
                 feats_unigram fs = Some (u, entropy, scale) → u ≠ c) →
              mid !! c = Some (VFloat v))
    ∧ (∀ f, is_Some (mid !! f) →
            (∃ v, feats_constant fs = Some (f, v))
            ∨ (∃ entropy scale, feats_unigram fs = Some (f, entropy, scale))))
    as (mid & -> & Hconst & Hkeys).
  { destruct (feats_unigram fs) as [[[u entropy] scale]|].
    - destruct Hu as (p & -> & Hlog & Hent). cbn.
      rewrite unigram_value_Ok by done. cbn. eexists. split; [done|]. split.
      + intros c v -> Hne. rewrite lookup_insert_ne by (by eapply Hne).
        apply lookup_insert_eq.
      + intros f. destruct (decide (u = f)) as [<-|Hne]; [right; eauto|].
        rewrite lookup_insert_ne by done.
        destruct (feats_constant fs) as [[c v]|]; [|by intros [? ?]].
        destruct (decide (c = f)) as [<-|Hne']; [left; eauto|].
        rewrite lookup_insert_ne by done. by intros [? ?].
    - eexists. split; [done|]. split.
      + intros c v -> _. apply lookup_insert_eq.
      + intros f. destruct (feats_constant fs) as [[c v]|]; [|by intros [? ?]].
        destruct (decide (c = f)) as [<-|Hne']; [left; eauto|].
        rewrite lookup_insert_ne by done. by intros [? ?]. }
  cbn. eexists. split; [done|].
  destruct (feats_word fs !! word) as [w|] eqn:Hw;
    destruct (feats_length fs) as [l|] eqn:Hl; split_and!.
  all: try (intros w' [= <-]; apply lookup_insert_eq).
  all: try (intros ? [=]; fail).
  all: try (intros l' [= <-] Hne; rewrite ?lookup_insert_ne by congruence;
            apply lookup_insert_eq).
  all: try (intros c v Hc Hcu Hcl Hcw;
            rewrite ?lookup_insert_ne by congruence; by apply Hconst).
  all: intros f;
    repeat (match goal with
            | |- is_Some (<[?k := _]> _ !! f) → _ =>
                destruct (decide (k = f)) as [<-|?];
                [by eauto|rewrite lookup_insert_ne by done]
            end);
    intros [?|?]%Hkeys; eauto.
Qed.

Lemma unigram_value_raises (p entropy scale : float) (e : error) :
  unigram_value p entropy scale = Raise e →
  (PrimFloat.leb p 0%float = true ∧ e = ValueError)
  ∨ (PrimFloat.leb p 0%float = false ∧ PrimFloat.eqb entropy 0%float = true
     ∧ e = ZeroDivisionError).
Proof.
  unfold unigram_value, math_log, float_div.
  destruct (PrimFloat.leb p 0%float); cbn; [intros [= <-]; by left|].
  destruct (PrimFloat.eqb entropy 0%float); [|done].
  intros [= <-]. by right.
Qed.

Lemma getitem_raises {A : Type} (l : list A) (i : Z) (e : error) :
  getitem l i = Raise e → e = IndexError.
Proof.
  unfold getitem. destruct (_ <? 0); [by intros [= <-]|].
  destruct (l !! _); [done|by intros [= <-]].
Qed.

Lemma returned_unigram_ready (fs : feats) (unigram_probs : list float)
    (word : string) (idx : Z) (ans : gmap Z value) :
  get_feature_list fs unigram_probs word idx = Ok ans →
  idx ≠ 0 → feats_special fs !! word = None →
  unigram_ready fs unigram_probs idx.
Proof.
  unfold get_feature_list, unigram_ready. intros Hans Hidx Hsp.
  destruct (Z.eqb_spec idx 0); [done|]. rewrite Hsp in Hans.
  destruct (feats_unigram fs) as [[[u entropy] scale]|]; [|done].
  destruct (getitem unigram_probs idx) as [p|]; [|done]. cbn in Hans.
  destruct (unigram_value p entropy scale) as [v|] eqn:Hv; [|done].
  exists p. split; [done|]. unfold unigram_value, math_log, float_div in Hv.
  destruct (PrimFloat.leb p 0%float); [done|]. cbn in Hv.
  by destruct (PrimFloat.eqb entropy 0%float).
Qed.

(** X9. [get_feature_list] returns exactly when the id is 0, or the word
    is special, or there is no unigram feature, or the unigram feature can
    be computed (the table has the id, the probability is not [<= 0], the
    entropy is not zero); when it raises it is with an IndexError, a
    ValueError or a ZeroDivisionError. *)
Theorem get_feature_list_returns (fs : feats) (unigram_probs : list float)
    (word : string) (idx : Z) :
  ((∃ ans, get_feature_list fs unigram_probs word idx = Ok ans)
   ↔ idx = 0 ∨ is_Some (feats_special fs !! word)
     ∨ unigram_ready fs unigram_probs idx)
  ∧ (∀ e, get_feature_list fs unigram_probs word idx = Raise e →
          e = IndexError ∨ e = ValueError ∨ e = ZeroDivisionError).
Proof.
  unfold get_feature_list, unigram_ready.
  destruct (Z.eqb_spec idx 0) as [->|Hidx]; [split; [|done]; split; eauto|].
  destruct (feats_special fs !! word) as [sid|];
    [split; [|done]; split; eauto|].
  destruct (feats_unigram fs) as [[[u entropy] scale]|];
    [|split; [|done]; split; eauto].
  destruct (getitem unigram_probs idx) as [p|e0] eqn:Hp; cbn.
  - destruct (unigram_value p entropy scale) as [v|e0] eqn:Hv; cbn.
    + split; [|done]. split; [|by eauto]. intros _. right; right.
      exists p. split; [done|]. unfold unigram_value, math_log, float_div in Hv.
      destruct (PrimFloat.leb p 0%float); [done|]. cbn in Hv.
      by destruct (PrimFloat.eqb entropy 0%float).
    + apply unigram_value_raises in Hv as [[Hlog ->]|(Hlog & Hent & ->)].
      * split; [|intros e [= <-]; eauto]. split; [by intros [? ?]|].
        intros [?|[[? ?]|(q & [= <-] & Hq & _)]]; congruence.
      * split; [|intros e [= <-]; eauto]. split; [by intros [? ?]|].
        intros [?|[[? ?]|(q & [= <-] & _ & Hq)]]; congruence.
  - apply getitem_raises in Hp as Heq. subst e0.
    split; [|intros e [= <-]; eauto]. split; [by intros [? ?]|].
    intros [?|[[? ?]|(q & Hq & _)]]; congruence.
Qed.

(** X10. With a unigram feature whose entropy is zero (0.0 or -0.0), a
    word that is not special, whose id is not 0 and whose probability is
    there and not [<= 0] makes [get_feature_list] raise a
    ZeroDivisionError. *)
Theorem zero_entropy_raises (fs : feats) (unigram_probs : list float)
    (word : string) (idx feat_id : Z) (entropy scale p : float) :
  idx ≠ 0 →
  feats_special fs !! word = None →
  feats_unigram fs = Some (feat_id, entropy, scale) →
  getitem unigram_probs idx = Ok p →
  PrimFloat.leb p 0%float = false →
  PrimFloat.eqb entropy 0%float = true →
  get_feature_list fs unigram_probs word idx = Raise ZeroDivisionError.
Proof.
  intros Hidx Hsp Hu Hp Hlog Hent. unfold get_feature_list.
  destruct (Z.eqb_spec idx 0); [done|]. rewrite Hsp, Hu, Hp. cbn.
  unfold unigram_value, math_log, float_div. rewrite Hlog. cbn.
  by rewrite Hent.
Qed.

(** X11. For a word that is not special and whose id is not 0, the word
    feature of the word has the value 1 whenever its id is not the id of an
    n-gram entry, also when the constant, unigram or length feature has the
    same id: it is set after them. *)
Theorem word_feature_value (fs : feats) (unigram_probs : list float)
    (word : string) (idx feat_id : Z) :
  idx ≠ 0 →
  feats_special fs !! word = None →
  unigram_ready fs unigram_probs idx →
  feats_word fs !! word = Some feat_id →
  (∀ ty g, ty ≠ Word → feats_ngram fs ty !! g ≠ Some feat_id) →
  ∃ ans,
    get_feature_list fs unigram_probs word idx = Ok ans
    ∧ ans !! feat_id = Some (VInt 1).
Proof.
  intros Hidx Hsp Hu Hw Hng.
  destruct (get_feature_list_head fs unigram_probs word idx)
    as (base & Hans & Hword & _); [done..|].
  exists (ngram_scan fs word base). split; [done|].
  rewrite scan_untouched by done. by apply Hword.
Qed.

(** X12. For a word that is not special and whose id is not 0, the length
    feature has the number of characters of the word as its value, whenever
    its id is neither the id of the word feature of this word nor of an
    n-gram entry. *)
Theorem length_feature_value (fs : feats) (unigram_probs : list float)
    (word : string) (idx feat_id : Z) :
  idx ≠ 0 →
  feats_special fs !! word = None →
  unigram_ready fs unigram_probs idx →
  feats_length fs = Some feat_id →
  feats_word fs !! word ≠ Some feat_id →
  (∀ ty g, ty ≠ Word → feats_ngram fs ty !! g ≠ Some feat_id) →
  ∃ ans,
    get_feature_list fs unigram_probs word idx = Ok ans
    ∧ ans !! feat_id = Some (VInt (len word)).
Proof.
  intros Hidx Hsp Hu Hl Hw Hng.
  destruct (get_feature_list_head fs unigram_probs word idx)
    as (base & Hans & _ & Hlen & _); [done..|].
  exists (ngram_scan fs word base). split; [done|].
  rewrite scan_untouched by done. by apply Hlen.
Qed.

(** X13. A feature id in the answer of [get_feature_list] is an id the
    dictionary gives to one of its features. *)
Theorem answer_ids_from_dictionary (fs : feats) (unigram_probs : list float)
    (word : string) (idx feat_id : Z) (ans : gmap Z value) :
  get_feature_list fs unigram_probs word idx = Ok ans →
  is_Some (ans !! feat_id) →
  is_feat_id fs feat_id.
Proof.
  intros Hans Hin. unfold is_feat_id.
  destruct (decide (idx = 0)) as [->|Hidx].
  { injection Hans as <-. rewrite lookup_empty in Hin. by destruct Hin. }
  destruct (feats_special fs !! word) as [sid|] eqn:Hsp.
  { unfold get_feature_list in Hans. destruct (Z.eqb_spec idx 0); [done|].
    rewrite Hsp in Hans. injection Hans as <-.
    destruct (decide (sid = feat_id)) as [<-|Hne]; [right; left; eauto|].
    rewrite lookup_insert_ne in Hin by done.
    destruct (feats_constant fs) as [[c v]|]; [|by destruct Hin].
    destruct (decide (c = feat_id)) as [<-|Hne']; [left; eauto|].
    rewrite lookup_insert_ne in Hin by done. by destruct Hin. }
  destruct (get_feature_list_head fs unigram_probs word idx)
    as (base & Hans' & _ & _ & _ & Hkeys); [done|done| |].
  { by eapply returned_unigram_ready. }
  rewrite Hans' in Hans. injection Hans as <-.
  rewrite ngram_scan_pairs, scan_lookup in Hin.
  destruct (filter (λ p, fires fs word feat_id p) (scan_pairs fs word))
    as [|p l] eqn:Hf.
  - apply Hkeys in Hin as [?|[?|[?|?]]]; [tauto|tauto|tauto|].
    do 4 right. by exists Word, word.
  - assert (p ∈ filter (λ p, fires fs word feat_id p) (scan_pairs fs word))
      as [Hp _]%list_elem_of_filter by (rewrite Hf; left).
    unfold fires in Hp.
    destruct (ngram_span word p.1 p.2) as [[ty g]|]; [|done].
    apply bool_decide_unpack in Hp. do 4 right. by exists ty, g.
Qed.

(** X14. For a word that is not special and whose id is not 0, the
    constant feature has its configured value, whenever its id is not the
    id of the unigram or length feature, of the word feature of this word
    or of an n-gram entry. *)
Theorem constant_feature_value (fs : feats) (unigram_probs : list float)
    (word : string) (idx feat_id : Z) (value : float) :
  idx ≠ 0 →
  feats_special fs !! word = None →
  unigram_ready fs unigram_probs idx →
  feats_constant fs = Some (feat_id, value) →
  (∀ u entropy scale, feats_unigram fs = Some (u, entropy, scale) → u ≠ feat_id) →
  feats_length fs ≠ Some feat_id →
  feats_word fs !! word ≠ Some feat_id →
  (∀ ty g, ty ≠ Word → feats_ngram fs ty !! g ≠ Some feat_id) →
  ∃ ans,
    get_feature_list fs unigram_probs word idx = Ok ans
    ∧ ans !! feat_id = Some (VFloat value).
Proof.
  intros Hidx Hsp Hu Hc Hcu Hcl Hcw Hng.
  destruct (get_feature_list_head fs unigram_probs word idx)
    as (base & Hans & _ & _ & Hconst & _); [done..|].
  exists (ngram_scan fs word base). split; [done|].
  rewrite scan_untouched by done. by apply Hconst.
Qed.

Lemma iter_incr_None (n : nat) :
  Nat.iter n incr_entry None
  = if decide (n = 0%nat) then None else Some (VInt (Z.of_nat n)).
Proof.
  induction n as [|n IH]; [done|]. simpl. rewrite IH.
  destruct n as [|n]; [done|]. unfold incr_entry. simpl. do 2 f_equal. lia.
Qed.

(** X15. For a word that is not special and whose id is not 0, and an
    n-gram of the match dict of a dictionary read from a file whose id no
    other feature uses: the answer has no entry for the id when the n-gram
    does not occur in the word, and otherwise the number of positions at
    which it occurs. *)
Theorem match_feature_count (features_file : list string) (fs : feats)
    (unigram_probs : list float) (word : string) (idx : Z) (g : string)
    (feat_id : Z) :
  read_features features_file = Ok fs →
  idx ≠ 0 →
  feats_special fs !! word = None →
  unigram_ready fs unigram_probs idx →
  sole_ngram_use fs feat_id Match g →
  unshared fs word feat_id →
  ∃ ans,
    get_feature_list fs unigram_probs word idx = Ok ans
    ∧ ans !! feat_id
      = if decide (length (occurrences g word) = 0%nat) then None
        else Some (VInt (Z.of_nat (length (occurrences g word)))).
Proof.
  intros Hr Hidx Hsp Hu Hsole Hun.
  destruct (get_feature_list_ordinary fs unigram_probs word idx)
    as (base & Hans & Hbase & _); [done..|].
  exists (ngram_scan fs word base). split; [done|].
  apply read_features_invariant in Hr as [(Hb & _) Hne].
  assert (is_Some (feats_ngram fs Match !! g)) as Hg
    by (destruct Hsole as [-> _]; eauto).
  rewrite ngram_scan_pairs, scan_lookup, (Hbase _ Hun).
  rewrite (list_filter_iff _ (λ p, spans word Match g p))
    by (intros p; by apply fires_sole_use).
  rewrite match_count; [apply iter_incr_None|by apply (Hne Match)|].
  apply Hb. by exists Match, g.
Qed.

(** An entry of the initial dict is matched when the word starts with its
    n-gram, an entry of the final dict when the word ends with it. *)
Lemma boundary_count_exact (fs : feats) (word g : string) (ty : ngram_type) :
  ty = Initial ∨ ty = Final →
  1 ≤ len g →
  feats_min_ngram_order fs ≤ len g + 1 ≤ feats_max_ngram_order fs →
  length (filter (λ p, spans word ty g p) (scan_pairs fs word))
  = if decide (len g ≤ len word
               ∧ match ty with
                 | Initial => slice word 0 (len g)
                 | _ => slice word (len word - len g) (len word)
                 end = g) then 1%nat else 0%nat.
Proof.
  intros Hty Hg Hord. pose proof (boundary_count fs word ty g Hty) as Hle.
  case_decide as Hd.
  - destruct Hd as [Hlen Hsl].
    assert (match ty with Initial => (len g - 1, len g + 1)
                        | _ => (len word, len g + 1) end
            ∈ filter (λ p, spans word ty g p) (scan_pairs fs word)) as Hin.
    { apply list_elem_of_filter. pose proof (len_nonneg word).
      destruct Hty as [-> | ->]; (split; [|apply elem_of_scan_pairs; simpl; lia]);
        unfold spans; apply bool_decide_pack, ngram_span_Some; simpl.
      - left. split; [done|]. split; [lia|]. split; [lia|].
        rewrite <- Hsl at 1. f_equal. lia.
      - right; left. split; [done|]. split; [lia|]. split; [lia|].
        rewrite <- Hsl at 1. f_equal. lia. }
    destruct (filter _ (scan_pairs fs word)) as [|p [|q l]];
      [by apply elem_of_nil in Hin|done|simpl in Hle; lia].
  - destruct (filter (λ p, spans word ty g p) (scan_pairs fs word))
      as [|p l] eqn:Hf; [done|]. destruct Hd.
    assert (p ∈ filter (λ p, spans word ty g p) (scan_pairs fs word))
      as [Hp Hin]%list_elem_of_filter by (rewrite Hf; left).
    apply elem_of_scan_pairs in Hin as [Hpos _].
    unfold spans in Hp. apply bool_decide_unpack in Hp.
    apply ngram_span_Some in Hp
      as [(-> & Hst & Hq & Hsl)|[(-> & Hst & Hq & Hsl)|(-> & _)]];
      [| |by destruct Hty].
    + assert (len g = p.1 + 1) as Hlg
        by (rewrite Hsl, len_slice; lia).
      split; [lia|]. rewrite Hlg. done.
    + assert (len g = len word - (p.1 - p.2 + 1)) as Hlg
        by (rewrite Hsl, len_slice; lia).
      split; [lia|]. rewrite Hsl at 2. f_equal. lia.
Qed.

(** X16. For a word that is not special and whose id is not 0, and an
    n-gram of the initial (final) dict of a dictionary read from a file
    whose id no other feature uses: the answer has the value 1 under the id
    when the word starts (ends) with the n-gram, the whole word included,
    and no entry for the id otherwise. *)
Theorem boundary_feature_value (features_file : list string) (fs : feats)
    (unigram_probs : list float) (word : string) (idx : Z) (ty : ngram_type)
    (g : string) (feat_id : Z) :
  read_features features_file = Ok fs →
  idx ≠ 0 →
  feats_special fs !! word = None →
  unigram_ready fs unigram_probs idx →
  ty = Initial ∨ ty = Final →
  sole_ngram_use fs feat_id ty g →
  unshared fs word feat_id →
  ∃ ans,
    get_feature_list fs unigram_probs word idx = Ok ans
    ∧ ans !! feat_id
      = if decide (len g ≤ len word
                   ∧ match ty with
                     | Initial => slice word 0 (len g)
                     | _ => slice word (len word - len g) (len word)
                     end = g)
        then Some (VInt 1) else None.
Proof.
  intros Hr Hidx Hsp Hu Hty Hsole Hun.
  destruct (get_feature_list_ordinary fs unigram_probs word idx)
    as (base & Hans & Hbase & _); [done..|].
  exists (ngram_scan fs word base). split; [done|].
  apply read_features_invariant in Hr as [(Hb & _) Hne].
  assert (is_Some (feats_ngram fs ty !! g)) as Hg
    by (destruct Hsole as [-> _]; eauto).
  assert (ty ≠ Word) as Hw by (destruct Hty as [-> | ->]; done).
  rewrite ngram_scan_pairs, scan_lookup, (Hbase _ Hun).
  rewrite (list_filter_iff _ (λ p, spans word ty g p))
    by (intros p; by apply fires_sole_use).
  rewrite boundary_count_exact; [by case_decide|done|by apply (Hne ty)|].
  apply Hb. exists ty, g. split; [done|]. split; [done|].
  by destruct Hty as [-> | ->].
Qed.

End feature_list.

Section looked_up_strings.

(** X17. At a position of the loop, a string that is looked up is a
    substring of the word that is not empty: of [order] characters for the
    match dict, of [order - 1] characters, at the start or at the end of the
    word, for the initial and the final dict. The word dict is never looked
    up in the loop. *)
Theorem ngram_span_substring (word : string) (pos order : Z) (ty : ngram_type)
    (feat : string) :
  0 ≤ pos ≤ len word →
  ngram_span word pos order = Some (ty, feat) →
  ty ≠ Word
  ∧ 1 ≤ len feat ≤ len word
  ∧ len feat = match ty with Match => order | _ => order - 1 end
  ∧ feat = match ty with
           | Initial => slice word 0 (len feat)
           | Final => slice word (len word - len feat) (len word)
           | _ => slice word (pos - order + 1) (pos - order + 1 + len feat)
           end.
Proof.
  intros Hpos Hs. split; [intros ->; by apply ngram_span_not_Word in Hs|].
  apply ngram_span_Some in Hs
    as [(-> & Hst & Hq & Hsl)|[(-> & Hst & Hq & Hsl)|(-> & Hst & Hq & Hsl)]].
  - assert (len feat = pos + 1) as Hl by (rewrite Hsl, len_slice; lia).
    split; [lia|]. split; [lia|]. by rewrite Hl.
  - assert (len feat = len word - (pos - order + 1)) as Hl
      by (rewrite Hsl, len_slice; lia).
    split; [lia|]. split; [lia|]. rewrite Hsl at 1. f_equal. lia.
  - assert (len feat = order) as Hl by (rewrite Hsl, len_slice; lia).
    split; [lia|]. split; [lia|]. rewrite Hsl at 1. f_equal. lia.
Qed.

End looked_up_strings.

Section dictionary_orders.
Context `{PyRuntime}.

(** X18. In a dictionary that was read no n-gram of the match, initial
    and final dicts is the empty string, and the orders the n-gram loop goes
    through start at 1 or above: [min_ngram_order] lies between 1 and
    10000. *)
Theorem read_features_min_order (features_file : list string) (fs : feats) :
  read_features features_file = Ok fs →
  (∀ ty g, ty ≠ Word → is_Some (feats_ngram fs ty !! g) → g ≠ "")
  ∧ 1 ≤ feats_min_ngram_order fs ≤ 10000.
Proof.
  intros [(_ & Hlo & Hle & _) Hne]%read_features_invariant. split.
  - intros ty g Hty Hg ->. by apply (Hne ty "" Hty) in Hg.
  - split; [|done]. destruct Hlo as [->|(ty & g & Hty & Hg & <-)]; [lia|].
    apply (Hne ty g Hty) in Hg. destruct ty; simpl; lia.
Qed.

End dictionary_orders.

(** * More runs on the sample files *)

Section more_runs.
Local Existing Instance sample_runtime.

Lemma sample_unigram_ready (idx : Z) :
  0 ≤ idx < 4 →
  unigram_ready sample_feats [1%float; 1%float; 1%float; 1%float] idx.
Proof.
  intros Hidx. exists 1%float.
  assert (idx = 0 ∨ idx = 1 ∨ idx = 2 ∨ idx = 3) as [->|[->|[->| ->]]] by lia;
    split_and!; reflexivity.
Defined.

Lemma sample_unshared (word : string) (feat_id : Z) :
  feat_id ≠ 0 → feat_id ≠ 3 → feat_id ≠ 5 →
  feats_word sample_feats !! word ≠ Some feat_id →
  unshared sample_feats word feat_id.
Proof.
  intros H0 H3 H5 Hw. split_and!; [| | |done].
  - by intros c v [= <- _].
  - by intros u e sc [= <- _ _].
  - by intros [=].
Defined.

Lemma sample_no_ngram (feat_id : Z) (ty : ngram_type) (g : string) :
  feat_id ≠ 9 → feat_id ≠ 7 → feat_id ≠ 8 →
  ty ≠ Word → feats_ngram sample_feats ty !! g ≠ Some feat_id.
Proof.
  intros H9 H7 H8 Hty Hg.
  destruct (sample_ngram_ids feat_id ty g Hty Hg)
    as [(? & _)|[(? & _)|(? & _)]]; done.
Defined.

Lemma read_sample_vocab : read_vocab sample_vocab_file = Ok sample_vocab.
Proof. vm_compute. reflexivity. Qed.

Lemma read_vocab_accepts_witness :
  ∃ recs,
    mapM vocab_record sample_vocab_file = Some recs
    ∧ NoDup recs.*1
    ∧ sorted recs.*2 = seqZ 0 (Z.of_nat (length recs))
    ∧ sample_vocab = list_to_map recs.
Proof.
  exact (read_vocab_accepts sample_vocab_file sample_vocab read_sample_vocab).
Defined.

Lemma read_vocab_bijection_witness :
  (∀ w id, sample_vocab !! w = Some id → 0 ≤ id < Z.of_nat (size sample_vocab))
  ∧ (∀ id, 0 ≤ id < Z.of_nat (size sample_vocab) →
           ∃ w, sample_vocab !! w = Some id)
  ∧ (∀ w w' id,
       sample_vocab !! w = Some id → sample_vocab !! w' = Some id → w = w').
Proof.
  exact (read_vocab_bijection sample_vocab_file sample_vocab read_sample_vocab).
Defined.

Lemma make_word_features_output_witness :
  ∃ vocab unigram_probs fs,
    read_vocab sample_vocab_file = Ok vocab
    ∧ read_unigram_probs sample_unigram_probs_file = Ok unigram_probs
    ∧ read_features sample_features_file = Ok fs
    ∧ sample_output.*1 = seqZ 0 (Z.of_nat (size vocab))
    ∧ ∀ idx feature_list,
        (idx, feature_list) ∈ sample_output →
        ∃ word, vocab !! word = Some idx
                ∧ get_feature_list fs unigram_probs word idx = Ok feature_list.
Proof.
  exact (make_word_features_output sample_vocab_file sample_unigram_probs_file
           sample_features_file sample_output run_sample_files).
Defined.

Lemma output_records_sorted_witness :
  ∃ out,
    make_word_features sample_vocab_file sample_unigram_probs_file
                       sample_features_file = Ok out
    ∧ Forall2 (λ o r, r.1 = o.1
                      ∧ Sorted Z.lt r.2.*1
                      ∧ ∀ f v, (f, v) ∈ r.2 ↔ o.2 !! f = Some v)
              out
              [(0, []);
               (1, [(0, VFloat 1); (1, VInt 1)]);
               (2, [(0, VFloat 1); (3, VFloat 1); (4, VInt 1); (5, VInt 3);
                    (7, VInt 1); (8, VInt 1)]);
               (3, [(0, VFloat 1); (3, VFloat 1); (5, VInt 6); (9, VInt 2)])].
Proof.
  apply (output_records_sorted sample_vocab_file sample_unigram_probs_file
           sample_features_file).
  vm_compute. reflexivity.
Defined.

Lemma read_features_last_line_witness :
  ("final" = "length" → feats_length sample_feats = Some 8)
  ∧ ∀ ty, ngram_type_of "final" = Some ty →
          ∃ g, split "8 final t" !! 2%nat = Some g
               ∧ feats_ngram sample_feats ty !! g = Some 8.
Proof.
  destruct (read_features_last_line
              ["0 constant 1.0"; "1 special <s>"; "3 unigram 2.0 1.0";
               "5 length"; "4 word cat"; "9 match an"; "7 initial c"]
              "8 final t" "8" "final" 8 sample_feats)
    as (_ & _ & _ & Hl & Hg); [exact read_sample_features|reflexivity..|].
  split; [exact Hl|exact Hg].
Defined.

Lemma read_unigram_probs_table_witness :
  [1%float; 1%float; 1%float; 1%float] !! 3%nat
  = last_prob [(0, 1%float); (1, 1%float); (3, 1%float); (2, 1%float)] 3.
Proof.
  apply (read_unigram_probs_table sample_unigram_probs_file
           [(0, 1%float); (1, 1%float); (3, 1%float); (2, 1%float)]
           [1%float; 1%float; 1%float; 1%float] 3).
  - reflexivity.
  - repeat constructor; simpl; lia.
  - reflexivity.
Defined.

Lemma negative_probability_id_witness :
  read_unigram_probs_line [Some 1%float; Some 1%float] "-1 0.5"
  = Ok [Some 1%float; Some 0.5%float]
  ∧ read_unigram_probs_line [] "-1 0.5" = Raise IndexError.
Proof.
  split.
  - apply (negative_probability_id [Some 1%float; Some 1%float] "-1 0.5"
             (-1) 0.5%float); [reflexivity|lia].
  - apply (negative_probability_id [] "-1 0.5" (-1) 0.5%float);
      [reflexivity|lia].
Defined.

Lemma zero_entropy_raises_witness :
  get_feature_list (set_unigram sample_feats (3, 0%float, 1%float))
                   [1%float; 1%float; 1%float; 1%float] "cat" 2
  = Raise ZeroDivisionError.
Proof.
  apply (zero_entropy_raises _ _ "cat" 2 3 0%float 1%float 1%float);
    [lia|reflexivity..].
Defined.

Lemma word_feature_value_witness :
  ∃ ans,
    get_feature_list sample_feats [1%float; 1%float; 1%float; 1%float] "cat" 2
    = Ok ans
    ∧ ans !! 4 = Some (VInt 1).
Proof.
  apply (word_feature_value sample_feats _ "cat" 2 4);
    [lia|reflexivity|apply sample_unigram_ready; lia|reflexivity|].
  intros ty g. apply sample_no_ngram; lia.
Defined.

Lemma length_feature_value_witness :
  ∃ ans,
    get_feature_list sample_feats [1%float; 1%float; 1%float; 1%float] "cat" 2
    = Ok ans
    ∧ ans !! 5 = Some (VInt (len "cat")).
Proof.
  apply (length_feature_value sample_feats _ "cat" 2 5);
    [lia|reflexivity|apply sample_unigram_ready; lia|reflexivity|by intros [=]|].
  intros ty g. apply sample_no_ngram; lia.
Defined.

Lemma answer_ids_from_dictionary_witness : is_feat_id sample_feats 9.
Proof.
  apply (answer_ids_from_dictionary sample_feats
           [1%float; 1%float; 1%float; 1%float] "banana" 3 9
           {[0 := VFloat 1; 3 := VFloat 1; 5 := VInt 6; 9 := VInt 2]}).
  - vm_compute. reflexivity.
  - exists (VInt 2). vm_compute. reflexivity.
Defined.

Lemma constant_feature_value_witness :
  ∃ ans,
    get_feature_list sample_feats [1%float; 1%float; 1%float; 1%float] "cat" 2
    = Ok ans
    ∧ ans !! 0 = Some (VFloat 1).
Proof.
  apply (constant_feature_value sample_feats _ "cat" 2 0 1%float);
    [lia|reflexivity|apply sample_unigram_ready; lia|reflexivity
    |by intros u e sc [= <- _ _]|by intros [=]|by intros [=]|].
  intros ty g. apply sample_no_ngram; lia.
Defined.

Lemma match_feature_count_witness :
  ∃ ans,
    get_feature_list sample_feats [1%float; 1%float; 1%float; 1%float] "banana" 3
    = Ok ans
    ∧ ans !! 9
      = if decide (length (occurrences "an" "banana") = 0%nat) then None
        else Some (VInt (Z.of_nat (length (occurrences "an" "banana")))).
Proof.
  apply (match_feature_count sample_features_file sample_feats _ "banana" 3 "an" 9).
  - exact read_sample_features.
  - lia.
  - reflexivity.
  - apply sample_unigram_ready; lia.
  - split; [reflexivity|]. intros ty g Hty Hg.
    destruct (sample_ngram_ids 9 ty g Hty Hg) as [(_ & -> & ->)|[(? & _)|(? & _)]];
      [done|lia|lia].
  - apply sample_unshared; [lia..|by intros [=]].
Defined.

Lemma boundary_feature_value_witness :
  ∃ ans,
    get_feature_list sample_feats [1%float; 1%float; 1%float; 1%float] "cat" 2
    = Ok ans
    ∧ ans !! 7
      = if decide (len "c" ≤ len "cat" ∧ slice "cat" 0 (len "c") = "c")
        then Some (VInt 1) else None.
Proof.
  apply (boundary_feature_value sample_features_file sample_feats _ "cat" 2
           Initial "c" 7).
  - exact read_sample_features.
  - lia.
  - reflexivity.
  - apply sample_unigram_ready; lia.
  - by left.
  - split; [reflexivity|]. intros ty g Hty Hg.
    destruct (sample_ngram_ids 7 ty g Hty Hg) as [(? & _)|[(_ & -> & ->)|(? & _)]];
      [lia|done|lia].
  - apply sample_unshared; [lia..|by intros [=]].
Defined.

Lemma ngram_span_substring_witness :
  ngram_span "cat" 2 2 = Some (Match, "at")
  ∧ 1 ≤ len "at" ≤ len "cat"
  ∧ len "at" = 2.
Proof.
  split; [reflexivity|].
  destruct (ngram_span_substring "cat" 2 2 Match "at")
    as (_ & Hl & Ho & _); [unfold len; simpl; lia|reflexivity|].
  split; [exact Hl|exact Ho].
Defined.

Lemma read_features_min_order_witness :
  (∀ ty g, ty ≠ Word → is_Some (feats_ngram sample_feats ty !! g) → g ≠ "")
  ∧ 1 ≤ feats_min_ngram_order sample_feats ≤ 10000.
Proof.
  exact (read_features_min_order sample_features_file sample_feats
           read_sample_features).
Defined.

End more_runs.
